(** * zemberek-python: word-level morphological analysis

    A shallow embedding of

      - [zemberek/morphology/analysis/word_analysis.py]  (class [WordAnalysis])
      - [zemberek/morphology/turkish_morphology.py]      (class [TurkishMorphology])

    Python strings are sequences of code points, Python integers are [Z],
    objects with identity live in a store and are named by their address,
    and a Python call is a computation that threads the store and the
    record of collaborator calls and may end in an exception. *)

From Stdlib Require Import ZArith Lia List.
From stdpp Require Import base option list strings gmap.

Local Open Scope Z_scope.

(** ** Python values *)

Module Py.

(** A [str] is a sequence of Unicode code points. *)
Abbreviation str := (list N).

Definition APOSTROPHE : N := 39%N.   (* chr(39), "'" *)
Definition DOT : N := 46%N.          (* "." *)

Definition len {A} (s : list A) : Z := Z.of_nat (length s).

(** Truth value of a string: the empty string is falsy. *)
Definition truthy (s : str) : bool :=
  match s with [] => false | _ :: _ => true end.

(** [s.find(c)] for a one-character [c]: lowest index, or -1. *)
Fixpoint find_from (i : Z) (c : N) (s : str) : Z :=
  match s with
  | [] => -1
  | x :: r => if N.eqb x c then i else find_from (i + 1) c r
  end.

Definition find (s : str) (c : N) : Z := find_from 0 c s.

(** [s.replace(c, new)] for a one-character [c]. *)
Definition replace (s : str) (c : N) (new : str) : str :=
  flat_map (fun x => if N.eqb x c then new else [x]) s.

(** Slice bounds as Python clips them. *)
Definition clip (n i : Z) : Z :=
  if i <? 0 then Z.max 0 (i + n) else Z.min i n.

(** [s[lo:hi]] and [s[lo:]]. *)
Definition slice {A} (s : list A) (lo hi : Z) : list A :=
  let lo' := clip (len s) lo in
  let hi' := clip (len s) hi in
  take (Z.to_nat (hi' - lo')) (drop (Z.to_nat lo') s).

Definition slice_from {A} (s : list A) (lo : Z) : list A :=
  drop (Z.to_nat (clip (len s) lo)) s.

(** [s.translate(table)] with a table from ordinals to strings: a code
    point that is no key of the table is kept. *)
Definition translate (table : gmap N str) (s : str) : str :=
  flat_map (fun x => default [x] (table !! x)) s.

(** Exceptions the modelled code can end in. [DanglingReference] is no
    Python exception: it is what reading an address that was never
    allocated gives, which no Python program can do. *)
Inductive exn : Type :=
| AttributeError
| NotImplementedError (msg : string)
| IndexError
| StopIteration
| DanglingReference.

Inductive result (A : Type) : Type :=
| Ok (a : A)
| Raise (e : exn).
Global Arguments Ok {A} a.
Global Arguments Raise {A} e.

(** [t[i]] on a tuple, negative indices counted from the end. *)
Definition getitem {A} (t : list A) (i : Z) : result A :=
  let j := if i <? 0 then i + len t else i in
  if j <? 0 then Raise IndexError
  else match t !! Z.to_nat j with
       | Some x => Ok x
       | None => Raise IndexError
       end.

End Py.

Import Py.

(** ** The data the two classes work on *)

(** Modelled from the spec: the enum [PrimaryPos] is declared in
    [zemberek.core.turkish], which is not among the sources; the code names
    only its member [Noun]. *)
Inductive PrimaryPos : Type :=
| Noun | Adjective | Adverb | Conjunction | Interjection | Verb | Pronoun
| Numeral | Determiner | PostPositive | Question | Duplicator | Punctuation
| Unknown.

Global Instance PrimaryPos_eq_dec : EqDecision PrimaryPos.
Proof. solve_decision. Defined.

(** Modelled from the spec: a lexical item (class [DictionaryItem], not among
    the sources) has a surface root, a normalized root, a primary
    part-of-speech and an "unknown" marker for synthetic placeholder items. *)
Record DictionaryItem : Type := {
  lemma : str;
  root : str;
  primary_pos : PrimaryPos;
  unknown_marker : bool
}.

Global Instance DictionaryItem_eq_dec : EqDecision DictionaryItem.
Proof. solve_decision. Defined.

Definition DictionaryItem_is_unknown (it : DictionaryItem) : bool :=
  unknown_marker it.

(** Modelled from the spec: a morpheme (class [Morpheme], not among the
    sources) is identified by a stable symbolic id. *)
Record Morpheme : Type := { morpheme_id : string }.

Global Instance Morpheme_eq_dec : EqDecision Morpheme.
Proof. solve_decision. Defined.

(** Modelled from the spec: a single analysis (class [SingleAnalysis], not
    among the sources) is one derivation: the lexical item used as root, the
    stem, the ordered morphemes applied and the final derived part-of-speech.
    Its equality is structural. *)
Record SingleAnalysis : Type := {
  item : DictionaryItem;
  stem : str;
  morphemes : list Morpheme;
  derived_pos : PrimaryPos
}.

Global Instance SingleAnalysis_eq_dec : EqDecision SingleAnalysis.
Proof. solve_decision. Defined.

(** Modelled from the spec: [SingleAnalysis.is_unknown] is not among the
    sources; an analysis is unknown when its root item is the unknown
    marker. *)
Definition SingleAnalysis_is_unknown (a : SingleAnalysis) : bool :=
  DictionaryItem_is_unknown (item a).

Definition contains_morpheme (a : SingleAnalysis) (m : Morpheme) : bool :=
  bool_decide (m ∈ morphemes a).

Definition get_stem (a : SingleAnalysis) : str := stem a.

(** Modelled from the spec: a token (class [Token], not among the sources)
    exposes its text and its span. *)
Record Token : Type := {
  content : str;
  token_start : Z;
  token_end : Z
}.

Global Instance Token_eq_dec : EqDecision Token.
Proof. solve_decision. Defined.

(** Modelled from the spec: [StemAndEnding] (not among the sources) is the
    split of a word into the part before and the part after a position. *)
Record StemAndEnding : Type := {
  se_stem : str;
  se_ending : str
}.

(** ** The store and the computation monad *)

Definition loc : Type := nat.

(** An instance of [WordAnalysis]: the four attributes [__init__] sets. *)
Record WordAnalysis : Type := {
  inp : str;
  analysis_results : list SingleAnalysis;
  normalized_input : str;
  index : Z
}.

(** Calls that leave the two modelled classes. *)
Inductive Call : Type :=
| TokenizerCall (text : str)
| AnalyzerCall (s : str)
| UnidentifiedCall (t : Token).

Global Instance Call_eq_dec : EqDecision Call.
Proof. solve_decision. Defined.

Record State : Type := {
  heap : list WordAnalysis;
  trace : list Call
}.

Definition M (A : Type) : Type := State -> result A * State.

Definition ret {A} (a : A) : M A := fun st => (Ok a, st).

Definition bind {A B} (m : M A) (f : A -> M B) : M B :=
  fun st =>
    match m st with
    | (Ok a, st') => f a st'
    | (Raise e, st') => (Raise e, st')
    end.

Definition raise {A} (e : exn) : M A := fun st => (Raise e, st).

Definition lift {A} (r : result A) : M A := fun st => (r, st).

Notation "'let*' x ':=' m 'in' k" := (bind m (fun x => k))
  (at level 10, x name, m at level 100, k at level 200, only parsing).

(** Record a call to a collaborator. *)
Definition emit (c : Call) : M unit :=
  fun st => (Ok tt, {| heap := heap st; trace := trace st ++ [c] |}).

(** The state after one more collaborator call. *)
Definition after_call (st : State) (c : Call) : State :=
  {| heap := heap st; trace := trace st ++ [c] |}.

(** The state after calls [cs], in order. *)
Definition after_calls (st : State) (cs : list Call) : State :=
  {| heap := heap st; trace := trace st ++ cs |}.

(** Create an object: it gets the next free address. *)
Definition alloc (o : WordAnalysis) : M loc :=
  fun st => (Ok (length (heap st)),
             {| heap := heap st ++ [o]; trace := trace st |}).

Definition deref (l : loc) : M WordAnalysis :=
  fun st => match heap st !! l with
            | Some o => (Ok o, st)
            | None => (Raise DanglingReference, st)
            end.

Definition set_index (l : loc) (i : Z) : M unit :=
  fun st => match heap st !! l with
            | Some o =>
                (Ok tt,
                 {| heap := <[l := {| inp := inp o;
                                      analysis_results := analysis_results o;
                                      normalized_input := normalized_input o;
                                      index := i |}]> (heap st);
                    trace := trace st |})
            | None => (Raise DanglingReference, st)
            end.

(** ** [class WordAnalysis] *)

(** Anything [__eq__] can be handed as [other]. *)
Inductive object : Type :=
| WordAnalysisObject (l : loc)
| OtherObject.

(** [WordAnalysis(inp, analysis_results, normalized_input=None)] *)
Definition WordAnalysis__init__
    (inp0 : str) (results : list SingleAnalysis) (normalized : option str)
  : M loc :=
  alloc {| inp := inp0;
           analysis_results := results;
           normalized_input :=
             match normalized with None => inp0 | Some n => n end;
           index := 0 |}.

Definition is_correct (self : loc) : M bool :=
  let* o := deref self in
  if 0 <? len (analysis_results o) then
    let* a := lift (getitem (analysis_results o) 0) in
    ret (negb (SingleAnalysis_is_unknown a))
  else ret false.

Definition WordAnalysis__eq__ (self : loc) (other : object) : M bool :=
  match other with
  | WordAnalysisObject l =>
      if Nat.eqb self l then ret true
      else
        let* a := deref self in
        let* b := deref l in
        if negb (bool_decide (inp a = inp b)) then ret false
        else if negb (bool_decide (normalized_input a = normalized_input b))
             then ret false
             else ret (bool_decide (analysis_results a = analysis_results b))
  | OtherObject => ret false
  end.

Section Hashing.

(** The built-in [hash] on strings and on analyses, and the truth value of
    an analysis ([hash(x) if x else 0]); [SingleAnalysis] is not among the
    sources, so both are left open. *)
Variable hash_str : str -> Z.
Variable hash_analysis : SingleAnalysis -> Z.
Variable bool_analysis : SingleAnalysis -> bool.

Definition hash_step (acc : Z) (x : SingleAnalysis) : Z :=
  31 * acc + (if bool_analysis x then hash_analysis x else 0).

Definition WordAnalysis__hash__ (self : loc) : M Z :=
  let* o := deref self in
  let r := hash_str (inp o) in
  let r := 31 * r + hash_str (normalized_input o) in
  ret (fold_left hash_step (analysis_results o) r).

End Hashing.

Definition WordAnalysis__iter__ (self : loc) : M loc :=
  let* _ := set_index self 0 in
  ret self.

Definition WordAnalysis__next__ (self : loc) : M SingleAnalysis :=
  let* o := deref self in
  if index o <? len (analysis_results o) then
    let* r := lift (getitem (analysis_results o) (index o)) in
    let* _ := set_index self (index o + 1) in
    ret r
  else raise StopIteration.

(** [for x in it: ...], collecting what is yielded: [next] is called until
    it raises [StopIteration]. [None] when the fuel runs out first. *)
Fixpoint drain (fuel : nat) (it : loc) : M (option (list SingleAnalysis)) :=
  fun st =>
    match fuel with
    | O => (Ok None, st)
    | S fuel' =>
        match WordAnalysis__next__ it st with
        | (Ok x, st') =>
            match drain fuel' it st' with
            | (Ok (Some r), st'') => (Ok (Some (x :: r)), st'')
            | other => other
            end
        | (Raise StopIteration, st') => (Ok (Some []), st')
        | (Raise e, st') => (Raise e, st')
        end
    end.

Definition for_each (fuel : nat) (obj : loc)
  : M (option (list SingleAnalysis)) :=
  let* it := WordAnalysis__iter__ obj in
  drain fuel it.

(** Loading the module runs [WordAnalysis.EMPTY_INPUT_RESULT =
    WordAnalysis("", ())] once, on the empty store. *)
Definition empty_state : State := {| heap := []; trace := [] |}.

Definition module_load : result loc * State :=
  WordAnalysis__init__ [] [] None empty_state.

Definition EMPTY_INPUT_RESULT : loc :=
  Eval cbv in match fst module_load with Ok l => l | Raise _ => O end.

Definition initial_state : State := snd module_load.

(** The sentinel is where the module put it; only its [index] may have
    moved since. *)
Definition loaded (st : State) : Prop :=
  exists i, heap st !! EMPTY_INPUT_RESULT =
            Some {| inp := []; analysis_results := [];
                    normalized_input := []; index := i |}.

(** Two objects, or two stores, that differ at most in the iteration
    index. *)
Definition same_fields (o o' : WordAnalysis) : Prop :=
  inp o = inp o' /\ analysis_results o = analysis_results o'
  /\ normalized_input o = normalized_input o'.

Definition same_objects (st st' : State) : Prop :=
  Forall2 same_fields (heap st) (heap st').

(** ** The collaborators of [TurkishMorphology]

    None of them is among the sources: each is an object with the one
    method the orchestration calls, taken as a total function. *)

Record TurkishTokenizer : Type := {
  tokenize : str -> list Token
}.

Record RuleBasedAnalyzer : Type := {
  RuleBasedAnalyzer_analyze : str -> list SingleAnalysis
}.

Record UnidentifiedTokenAnalyzer : Type := {
  UnidentifiedTokenAnalyzer_analyze : Token -> list SingleAnalysis
}.

(** What the orchestration uses of [TurkishAlphabet.INSTANCE]. *)
Record TurkishAlphabet : Type := {
  lower_map : gmap N str;
  normalize_circumflex : str -> str;
  contains_apostrophe : str -> bool;
  normalize_apostrophe : str -> str;
  normalize : str -> str
}.

(** ** [class TurkishMorphology] *)

Section Morphology.

Variable INSTANCE : TurkishAlphabet.              (* TurkishAlphabet.INSTANCE *)
Variable str_lower : str -> str.                  (* the built-in str.lower *)
Variable TextUtil_normalize_apostrophes : str -> str.
Variable p3sg : Morpheme.                         (* TurkishMorphotactics.p3sg *)

Variables RootLexicon Morphotactics WordGenerator : Type.
Variable TurkishMorphotactics_new : RootLexicon -> Morphotactics.
Variable InformalTurkishMorphotactics_new : RootLexicon -> Morphotactics.
Variable RuleBasedAnalyzer_instance : Morphotactics -> RuleBasedAnalyzer.
Variable RuleBasedAnalyzer_ignore_diacritics_instance :
  Morphotactics -> RuleBasedAnalyzer.
Variable UnidentifiedTokenAnalyzer_new :
  RuleBasedAnalyzer -> UnidentifiedTokenAnalyzer.
Variable WordGenerator_new : Morphotactics -> WordGenerator.
Variable TurkishTokenizer_DEFAULT : TurkishTokenizer.

Record Builder : Type := {
  b_tokenizer : TurkishTokenizer;
  b_lexicon : RootLexicon;
  informal_analysis : bool;
  ignore_diacritics_in_analysis : bool;
  use_dynamic_cache : bool;
  use_unidentifiedTokenAnalyzer : bool
}.

(** [Builder(lexicon)]: the two class attributes keep their defaults. *)
Definition Builder__init__ (lexicon0 : RootLexicon) : Builder :=
  {| b_tokenizer := TurkishTokenizer_DEFAULT;
     b_lexicon := lexicon0;
     informal_analysis := false;
     ignore_diacritics_in_analysis := false;
     use_dynamic_cache := false;
     use_unidentifiedTokenAnalyzer := true |}.

Record TurkishMorphology : Type := {
  lexicon : RootLexicon;
  morphotactics : Morphotactics;
  analyzer : RuleBasedAnalyzer;
  unidentified_token_analyzer : UnidentifiedTokenAnalyzer;
  tokenizer : TurkishTokenizer;
  word_generator : WordGenerator;
  use_cache : bool;
  use_unidentified_token_analyzer : bool
}.

Definition TurkishMorphology__init__ (builder : Builder) : TurkishMorphology :=
  let lexicon0 := b_lexicon builder in
  let morphotactics0 :=
    if informal_analysis builder
    then InformalTurkishMorphotactics_new lexicon0
    else TurkishMorphotactics_new lexicon0 in
  let analyzer0 :=
    if ignore_diacritics_in_analysis builder
    then RuleBasedAnalyzer_ignore_diacritics_instance morphotactics0
    else RuleBasedAnalyzer_instance morphotactics0 in
  {| lexicon := lexicon0;
     morphotactics := morphotactics0;
     analyzer := analyzer0;
     unidentified_token_analyzer := UnidentifiedTokenAnalyzer_new analyzer0;
     tokenizer := b_tokenizer builder;
     word_generator := WordGenerator_new morphotactics0;
     use_cache := use_dynamic_cache builder;
     use_unidentified_token_analyzer := use_unidentifiedTokenAnalyzer builder |}.

Definition build (builder : Builder) : TurkishMorphology :=
  TurkishMorphology__init__ builder.

(** Calls to the collaborators held by [self]. *)
Definition call_tokenizer (self : TurkishMorphology) (w : str)
  : M (list Token) :=
  let* _ := emit (TokenizerCall w) in
  ret (tokenize (tokenizer self) w).

Definition call_analyzer (self : TurkishMorphology) (s : str)
  : M (list SingleAnalysis) :=
  let* _ := emit (AnalyzerCall s) in
  ret (RuleBasedAnalyzer_analyze (analyzer self) s).

Definition call_unidentified (self : TurkishMorphology) (t : Token)
  : M (list SingleAnalysis) :=
  let* _ := emit (UnidentifiedCall t) in
  ret (UnidentifiedTokenAnalyzer_analyze (unidentified_token_analyzer self) t).

Definition analyze_with_cache (self : TurkishMorphology) (word : str)
  : M loc :=
  raise (NotImplementedError "Cache is not implemented yet, make use_cache False").

Definition normalize_for_analysis (word : str) : str :=
  let s := str_lower (translate (lower_map INSTANCE) word) in
  let s := normalize_circumflex INSTANCE s in
  let no_dot := replace s DOT [] in
  let no_dot := if len no_dot =? 0 then s else no_dot in
  TextUtil_normalize_apostrophes no_dot.

(** The test of the generator expression in [analyze_words_with_apostrophe]. *)
Definition apostrophe_filter (stem0 : str) (p : SingleAnalysis) : bool :=
  bool_decide (primary_pos (item p) = Noun)
  && (contains_morpheme p p3sg || bool_decide (get_stem p = stem0)).

Definition analyze_words_with_apostrophe
    (self : TurkishMorphology) (word : str) : M (list SingleAnalysis) :=
  let index0 := find word (APOSTROPHE) in
  if (0 <? index0) && negb (index0 =? len word - 1) then
    let se := {| se_stem := slice word 0 index0;
                 se_ending := slice_from word (index0 + 1) |} in
    let stem0 := normalize INSTANCE (se_stem se) in
    let without_quote := replace word APOSTROPHE [] in
    let* no_quotes_parses := call_analyzer self without_quote in
    if len no_quotes_parses =? 0 then ret []
    else ret (List.filter (apostrophe_filter stem0) no_quotes_parses)
  else ret [].

(** Lines 91-95: the apostrophe path or the rule-based analyzer; the
    normalized text the result will carry comes back with the analyses. *)
Definition first_pass (self : TurkishMorphology) (s : str)
  : M (str * list SingleAnalysis) :=
  if contains_apostrophe INSTANCE s then
    let s' := normalize_apostrophe INSTANCE s in
    let* r := analyze_words_with_apostrophe self s' in
    ret (s', r)
  else
    let* r := call_analyzer self s in
    ret (s, r).

(** Lines 97-98. *)
Definition fallback (self : TurkishMorphology) (token : Token)
    (result0 : list SingleAnalysis) : M (list SingleAnalysis) :=
  if (len result0 =? 0) && use_unidentified_token_analyzer self
  then call_unidentified self token
  else ret result0.

(** Lines 100-101. *)
Definition drop_lone_unknown (result0 : list SingleAnalysis)
  : M (list SingleAnalysis) :=
  if len result0 =? 1 then
    let* r0 := lift (getitem result0 0) in
    if DictionaryItem_is_unknown (item r0) then ret [] else ret result0
  else ret result0.

(** The [else] branch of [analyze_without_cache]: [word] is falsy and the
    token is read. *)
Definition analyze_token (self : TurkishMorphology) (token : option Token)
  : M loc :=
  match token with
  | None => raise AttributeError          (* None has no attribute content *)
  | Some tok =>
      let word := content tok in
      let s := normalize_for_analysis word in
      if len s =? 0 then ret EMPTY_INPUT_RESULT
      else
        let* sr := first_pass self s in
        let* result1 := fallback self tok (snd sr) in
        let* result2 := drop_lone_unknown result1 in
        WordAnalysis__init__ word result2 (Some (fst sr))
  end.

(** [analyze_without_cache(word=None, token=None)]. The call it makes to
    itself passes only [token], so it is the [else] branch that runs. *)
Definition analyze_without_cache
    (self : TurkishMorphology) (word : option str) (token : option Token)
  : M loc :=
  match word with
  | Some w =>
      if truthy w then
        let* tokens := call_tokenizer self w in
        if negb (len tokens =? 1) then WordAnalysis__init__ w [] (Some w)
        else
          let* t0 := lift (getitem tokens 0) in
          analyze_token self (Some t0)
      else analyze_token self token
  | None => analyze_token self token
  end.

Definition analyze (self : TurkishMorphology) (word : str) : M loc :=
  if use_cache self then analyze_with_cache self word
  else analyze_without_cache self (Some word) None.

End Morphology.

Arguments Builder__init__ {RootLexicon} TurkishTokenizer_DEFAULT lexicon0.
Arguments b_tokenizer {RootLexicon} b.
Arguments b_lexicon {RootLexicon} b.
Arguments informal_analysis {RootLexicon} b.
Arguments ignore_diacritics_in_analysis {RootLexicon} b.
Arguments use_dynamic_cache {RootLexicon} b.
Arguments use_unidentifiedTokenAnalyzer {RootLexicon} b.
Arguments lexicon {RootLexicon Morphotactics WordGenerator} t.
Arguments morphotactics {RootLexicon Morphotactics WordGenerator} t.
Arguments analyzer {RootLexicon Morphotactics WordGenerator} t.
Arguments unidentified_token_analyzer {RootLexicon Morphotactics WordGenerator} t.
Arguments tokenizer {RootLexicon Morphotactics WordGenerator} t.
Arguments word_generator {RootLexicon Morphotactics WordGenerator} t.
Arguments use_cache {RootLexicon Morphotactics WordGenerator} t.
Arguments use_unidentified_token_analyzer
  {RootLexicon Morphotactics WordGenerator} t.
Arguments TurkishMorphology__init__ {RootLexicon Morphotactics WordGenerator}.
Arguments build {RootLexicon Morphotactics WordGenerator}.
Arguments call_tokenizer {RootLexicon Morphotactics WordGenerator}.
Arguments call_analyzer {RootLexicon Morphotactics WordGenerator}.
Arguments call_unidentified {RootLexicon Morphotactics WordGenerator}.
Arguments analyze_with_cache {RootLexicon Morphotactics WordGenerator}.
Arguments analyze_words_with_apostrophe INSTANCE p3sg
  {RootLexicon Morphotactics WordGenerator}.
Arguments first_pass INSTANCE p3sg {RootLexicon Morphotactics WordGenerator}.
Arguments fallback {RootLexicon Morphotactics WordGenerator}.
Arguments analyze_token INSTANCE str_lower TextUtil_normalize_apostrophes p3sg
  {RootLexicon Morphotactics WordGenerator}.
Arguments analyze_without_cache INSTANCE str_lower
  TextUtil_normalize_apostrophes p3sg {RootLexicon Morphotactics WordGenerator}.
Arguments analyze INSTANCE str_lower TextUtil_normalize_apostrophes p3sg
  {RootLexicon Morphotactics WordGenerator}.

(** ** The claims of the specification that the code does not meet, stated
       as the specification words them *)

(** Apostrophe Splitter, as the specification has it: on a word [pre ' post]
    with both parts non-empty, what comes back is exactly the analyses of
    the word without the apostrophe whose _derived_ part-of-speech is noun
    and that carry the third-person-singular-possessive morpheme or have the
    normalized [pre] as their stem. *)
Definition splitter_filters_on_derived_pos
    (alphabet : TurkishAlphabet) (p3sg : Morpheme)
    {RootLexicon Morphotactics WordGenerator : Type}
    (self : TurkishMorphology RootLexicon Morphotactics WordGenerator)
    (pre post : str) (st : State) : Prop :=
  let word := pre ++ APOSTROPHE :: post in
  let parses :=
    RuleBasedAnalyzer_analyze (analyzer self) (replace word APOSTROPHE []) in
  APOSTROPHE ∉ pre -> pre <> [] -> post <> [] ->
  exists r st',
    analyze_words_with_apostrophe alphabet p3sg self word st = (Ok r, st')
    /\ forall p,
         p ∈ r <->
         p ∈ parses /\ derived_pos p = Noun
         /\ (p3sg ∈ morphemes p \/ get_stem p = normalize alphabet pre).

(** Apostrophe Splitter on malformed words, as the specification has it:
    a word with an apostrophe as its first character, or as its last
    character, or with no apostrophe gets the empty sequence. *)
Definition splitter_empty_when_an_apostrophe_is_last
    (alphabet : TurkishAlphabet) (p3sg : Morpheme)
    {RootLexicon Morphotactics WordGenerator : Type}
    (self : TurkishMorphology RootLexicon Morphotactics WordGenerator)
    (word : str) (st : State) : Prop :=
  (APOSTROPHE ∉ word)
  \/ (exists rest, word = APOSTROPHE :: rest)
  \/ (exists pre, word = pre ++ [APOSTROPHE]) ->
  analyze_words_with_apostrophe alphabet p3sg self word st = (Ok [], st).

(** ** A small world to run the code in

    Stand-ins for the collaborators, used where a statement is evaluated on
    concrete input. *)

Module Example.

(** ASCII text as code points. *)
Definition lit (s : string) : str :=
  map Ascii.N_of_ascii (String.list_ascii_of_string s).

(** Modelled from the spec: the language-specific lowering map sends dotless
    capital I to dotless small ı and dotted capital İ to small i. *)
Definition tr_char (c : N) : N :=
  if N.eqb c 73 then 305 else if N.eqb c 304 then 105 else c.

Definition lower_table : gmap N str :=
  {[ 73%N := [305%N]; 304%N := [105%N] ]}.

(** [str.lower] on the Latin letters Turkish text uses. *)
Definition lower_char (c : N) : N :=
  if N.leb 65 c && N.leb c 90 then (c + 32)%N
  else if N.eqb c 199 then 231        (* Ç *)
  else if N.eqb c 286 then 287        (* Ğ *)
  else if N.eqb c 214 then 246        (* Ö *)
  else if N.eqb c 350 then 351        (* Ş *)
  else if N.eqb c 220 then 252        (* Ü *)
  else if N.eqb c 194 then 226        (* Â *)
  else if N.eqb c 206 then 238        (* Î *)
  else if N.eqb c 219 then 251        (* Û *)
  else c.

Definition lower (s : str) : str := map lower_char s.

(** The lowering stage on one code point: the map, then [lower]. *)
Definition lowered_char (c : N) : N := lower_char (tr_char c).

(** Modelled from the spec: circumflexed vowels become plain vowels. *)
Definition circumflex_char (c : N) : N :=
  if N.eqb c 226 then 97              (* â -> a *)
  else if N.eqb c 238 then 105        (* î -> i *)
  else if N.eqb c 251 then 117        (* û -> u *)
  else if N.eqb c 194 then 65         (* Â -> A *)
  else if N.eqb c 206 then 304        (* Î -> İ *)
  else if N.eqb c 219 then 85         (* Û -> U *)
  else c.

(** Modelled from the spec: apostrophe variants become the one canonical
    apostrophe. *)
Definition is_apostrophe_variant (c : N) : bool :=
  N.eqb c 8242 || N.eqb c 180 || N.eqb c 96 || N.eqb c 8217 || N.eqb c 8216
  || N.eqb c 39.

Definition apostrophe_char (c : N) : N :=
  if is_apostrophe_variant c then APOSTROPHE else c.

Definition is_letter (c : N) : bool :=
  (N.leb 97 c && N.leb c 122)
  || N.eqb c 231 || N.eqb c 287 || N.eqb c 305 || N.eqb c 246
  || N.eqb c 351 || N.eqb c 252 || N.eqb c 226 || N.eqb c 238 || N.eqb c 251.

Definition normalize_apostrophes (s : str) : str := map apostrophe_char s.

(** [TurkishAlphabet.normalize]: lower, unify apostrophes, and put "?" for
    whatever is neither a letter nor "." nor "-". *)
Definition alphabet_normalize (s : str) : str :=
  map (fun c => if is_letter c || N.eqb c 46 || N.eqb c 45 then c else 63%N)
      (normalize_apostrophes (lower (translate lower_table s))).

Definition alphabet : TurkishAlphabet :=
  {| lower_map := lower_table;
     normalize_circumflex := map circumflex_char;
     contains_apostrophe := existsb is_apostrophe_variant;
     normalize_apostrophe := map apostrophe_char;
     normalize := alphabet_normalize |}.

Definition p3sg : Morpheme := {| morpheme_id := "P3sg" |}.
Definition morph (s : string) : Morpheme := {| morpheme_id := s |}.

(** A tokenizer that cuts at blanks. *)
Fixpoint cut (cur : str) (start pos : Z) (s : str) : list Token :=
  let close :=
    match cur with
    | [] => []
    | _ => [ {| content := rev cur; token_start := start;
               token_end := pos - 1 |} ]
    end in
  match s with
  | [] => close
  | c :: r =>
      if N.eqb c 32 then close ++ cut [] (pos + 1) (pos + 1) r
      else cut (c :: cur) start (pos + 1) r
  end.

Definition tokenizer : TurkishTokenizer := {| tokenize := cut [] 0 0 |}.

(** A three-word lexicon. *)
Definition ahmet : DictionaryItem :=
  {| lemma := lit "Ahmet"; root := lit "ahmet";
     primary_pos := Noun; unknown_marker := false |}.

Definition ev : DictionaryItem :=
  {| lemma := lit "ev"; root := lit "ev";
     primary_pos := Noun; unknown_marker := false |}.

Definition UNKNOWN : DictionaryItem :=
  {| lemma := lit "UNK"; root := lit "UNK";
     primary_pos := Unknown; unknown_marker := true |}.

(** ahmet + Gen: "ahmetin" *)
Definition ahmet_gen : SingleAnalysis :=
  {| item := ahmet; stem := lit "ahmet";
     morphemes := [morph "Noun"; morph "A3sg"; morph "Gen"];
     derived_pos := Noun |}.

(** ahmet + Become -> Verb + Past: "ahmetleşti" *)
Definition ahmet_become_past : SingleAnalysis :=
  {| item := ahmet; stem := lit "ahmet";
     morphemes := [morph "Noun"; morph "A3sg"; morph "Become"; morph "Verb";
                   morph "Past"; morph "A3sg"];
     derived_pos := Verb |}.

(** ev + P3sg: "evi" *)
Definition ev_p3sg : SingleAnalysis :=
  {| item := ev; stem := lit "ev";
     morphemes := [morph "Noun"; morph "A3sg"; p3sg];
     derived_pos := Noun |}.

Definition ahmetlesti : str := lit "ahmetle" ++ [351%N] ++ lit "ti".

Definition rule_based (_ : unit) : RuleBasedAnalyzer :=
  {| RuleBasedAnalyzer_analyze := fun s =>
       if bool_decide (s = lit "ahmetin") then [ahmet_gen]
       else if bool_decide (s = ahmetlesti) then [ahmet_become_past]
       else if bool_decide (s = lit "evi") then [ev_p3sg; ev_p3sg]
       else [] |}.

(** The fallback tags what it is given as unknown. *)
Definition unidentified (_ : RuleBasedAnalyzer) : UnidentifiedTokenAnalyzer :=
  {| UnidentifiedTokenAnalyzer_analyze := fun t =>
       [ {| item := UNKNOWN; stem := content t; morphemes := [];
            derived_pos := Unknown |} ] |}.

Definition builder : Builder unit :=
  Builder__init__ tokenizer tt.

Definition morphology : TurkishMorphology unit unit unit :=
  build (fun _ => tt) (fun _ => tt) rule_based rule_based unidentified
        (fun _ => tt) builder.

Definition run_analyze (word : str) : result loc * State :=
  analyze alphabet lower normalize_apostrophes p3sg
          morphology word initial_state.

(** A store with the sentinel and two analyses of "evi" that differ only in
    how far they have been iterated. *)
Definition evi_object (i : Z) : WordAnalysis :=
  {| inp := lit "evi"; analysis_results := [ev_p3sg; ev_p3sg];
     normalized_input := lit "evi"; index := i |}.

Definition evi_state : State :=
  {| heap := heap initial_state ++ [evi_object 0; evi_object 2];
     trace := [] |}.

(** Hashes in the style of the code: 31 times the hash so far plus the
    next element. *)
Definition hash_str (s : str) : Z :=
  fold_left (fun h c => 31 * h + Z.of_N c) s 0.

Definition hash_analysis (a : SingleAnalysis) : Z :=
  31 * hash_str (root (item a)) + hash_str (stem a).

Definition bool_analysis (_ : SingleAnalysis) : bool := true.

Definition token_of (word : str) : Token :=
  {| content := word; token_start := 0; token_end := len word - 1 |}.

End Example.

(** ** The rest of the two classes *)

(** ASCII text of the source as code points. *)
Definition text (s : string) : str :=
  map Ascii.N_of_ascii (String.list_ascii_of_string s).

(** [sep.join(parts)] *)
Definition join (sep : str) (parts : list str) : str :=
  match parts with
  | [] => []
  | p :: ps => p ++ flat_map (fun q => sep ++ q) ps
  end.

Section Rendering.

(** [str(a)] of an analysis; [SingleAnalysis.__str__] is not among the
    sources. *)
Variable str_analysis : SingleAnalysis -> str.

Definition WordAnalysis__str__ (self : loc) : M str :=
  let* o := deref self in
  ret (text "WordAnalysis{input='" ++ inp o ++ [APOSTROPHE]
       ++ text ", normalizedInput='" ++ normalized_input o ++ [APOSTROPHE]
       ++ text ", analysisResults="
       ++ join (text " ") (map str_analysis (analysis_results o))
       ++ text "}").

End Rendering.

(** The methods of [Builder]. Each changes one attribute of the builder and
    returns the builder, so that calls chain; a chain is followed here by
    passing the builder along. *)
Definition set_lexicon {RootLexicon : Type}
    (self : Builder RootLexicon) (lexicon0 : RootLexicon)
  : Builder RootLexicon :=
  {| b_tokenizer := b_tokenizer self;
     b_lexicon := lexicon0;
     informal_analysis := informal_analysis self;
     ignore_diacritics_in_analysis := ignore_diacritics_in_analysis self;
     use_dynamic_cache := use_dynamic_cache self;
     use_unidentifiedTokenAnalyzer := use_unidentifiedTokenAnalyzer self |}.

Definition use_informal_analysis {RootLexicon : Type}
    (self : Builder RootLexicon) : Builder RootLexicon :=
  {| b_tokenizer := b_tokenizer self;
     b_lexicon := b_lexicon self;
     informal_analysis := true;
     ignore_diacritics_in_analysis := ignore_diacritics_in_analysis self;
     use_dynamic_cache := use_dynamic_cache self;
     use_unidentifiedTokenAnalyzer := use_unidentifiedTokenAnalyzer self |}.

Definition ignore_diacritics_in_analysis_ {RootLexicon : Type}
    (self : Builder RootLexicon) : Builder RootLexicon :=
  {| b_tokenizer := b_tokenizer self;
     b_lexicon := b_lexicon self;
     informal_analysis := informal_analysis self;
     ignore_diacritics_in_analysis := true;
     use_dynamic_cache := use_dynamic_cache self;
     use_unidentifiedTokenAnalyzer := use_unidentifiedTokenAnalyzer self |}.

(** [TurkishMorphology.builder(lexicon)] *)
Definition builder {RootLexicon : Type}
    (TurkishTokenizer_DEFAULT : TurkishTokenizer) (lexicon0 : RootLexicon)
  : Builder RootLexicon :=
  Builder__init__ TurkishTokenizer_DEFAULT lexicon0.

(** A chain of method calls on a builder. *)
Inductive BuilderCall (RootLexicon : Type) : Type :=
| SetLexicon (lexicon0 : RootLexicon)
| UseInformalAnalysis
| IgnoreDiacriticsInAnalysis.
Arguments SetLexicon {RootLexicon} lexicon0.
Arguments UseInformalAnalysis {RootLexicon}.
Arguments IgnoreDiacriticsInAnalysis {RootLexicon}.

Definition builder_call {RootLexicon : Type}
    (self : Builder RootLexicon) (c : BuilderCall RootLexicon)
  : Builder RootLexicon :=
  match c with
  | SetLexicon lexicon0 => set_lexicon self lexicon0
  | UseInformalAnalysis => use_informal_analysis self
  | IgnoreDiacriticsInAnalysis => ignore_diacritics_in_analysis_ self
  end.

Definition builder_chain {RootLexicon : Type}
    (self : Builder RootLexicon) (calls : list (BuilderCall RootLexicon))
  : Builder RootLexicon :=
  fold_left builder_call calls self.

(** The lexicon a chain leaves: the one of the last [set_lexicon]. *)
Fixpoint last_lexicon {RootLexicon : Type}
    (calls : list (BuilderCall RootLexicon)) (lexicon0 : RootLexicon)
  : RootLexicon :=
  match calls with
  | [] => lexicon0
  | SetLexicon l :: cs => last_lexicon cs l
  | _ :: cs => last_lexicon cs lexicon0
  end.

Definition calls_informal {RootLexicon : Type}
    (c : BuilderCall RootLexicon) : bool :=
  match c with UseInformalAnalysis => true | _ => false end.

Definition calls_ignore_diacritics {RootLexicon : Type}
    (c : BuilderCall RootLexicon) : bool :=
  match c with IgnoreDiacriticsInAnalysis => true | _ => false end.

(** An object whose analyses are not one lone analysis of unknown root. *)
Definition no_lone_unknown (o : WordAnalysis) : Prop :=
  forall a, analysis_results o = [a] ->
            DictionaryItem_is_unknown (item a) = false.

(** At most one call of each collaborator, tokenizer first, fallback last. *)
Definition call_discipline (calls : list Call) : Prop :=
  exists t a u,
    calls = t ++ a ++ u
    /\ (t = [] \/ exists w, t = [TokenizerCall w])
    /\ (a = [] \/ exists s, a = [AnalyzerCall s])
    /\ (u = [] \/ exists tok, u = [UnidentifiedCall tok]).

(** * Properties *)

(** ** Python operations *)

Lemma len_nil {A} : len (@nil A) = 0.
Proof. reflexivity. Qed.

Lemma len_cons_pos {A} (x : A) (l : list A) : 0 < len (x :: l).
Proof. unfold len. simpl. lia. Qed.

Lemma len_zero_nil {A} (l : list A) : len l = 0 -> l = [].
Proof. destruct l; [reflexivity | intros H; pose proof (len_cons_pos a l); lia]. Qed.

Lemma getitem_lookup {A} (t : list A) (k : nat) (x : A) :
  t !! k = Some x -> getitem t (Z.of_nat k) = Ok x.
Proof.
  intros H. unfold getitem. cbv zeta.
  assert (E : (Z.of_nat k <? 0) = false) by (apply Z.ltb_ge; lia).
  rewrite !E, Nat2Z.id, H. reflexivity.
Qed.

Lemma deref_Some (st : State) (l : loc) (o : WordAnalysis) :
  heap st !! l = Some o -> deref l st = (Ok o, st).
Proof. intros H. unfold deref. rewrite H. reflexivity. Qed.

(** ** [WordAnalysis] *)

Section WordAnalysisFacts.

Variable hash_str : str -> Z.
Variable hash_analysis : SingleAnalysis -> Z.
Variable bool_analysis : SingleAnalysis -> bool.

Local Abbreviation hash :=
  (WordAnalysis__hash__ hash_str hash_analysis bool_analysis).

Lemma eq_value (st : State) (a b : loc) (oa ob : WordAnalysis) :
  heap st !! a = Some oa -> heap st !! b = Some ob ->
  WordAnalysis__eq__ a (WordAnalysisObject b) st =
  (Ok (Nat.eqb a b
       || (bool_decide (inp oa = inp ob)
           && bool_decide (normalized_input oa = normalized_input ob)
           && bool_decide (analysis_results oa = analysis_results ob))), st).
Proof.
  intros Ha Hb. unfold WordAnalysis__eq__.
  destruct (Nat.eqb a b); [reflexivity |].
  unfold bind. rewrite (deref_Some _ _ _ Ha), (deref_Some _ _ _ Hb).
  destruct (bool_decide (inp oa = inp ob)); [| reflexivity].
  destruct (bool_decide (normalized_input oa = normalized_input ob));
    reflexivity.
Qed.

Lemma hash_value (st : State) (a : loc) (oa : WordAnalysis) :
  heap st !! a = Some oa ->
  hash a st =
  (Ok (fold_left (hash_step hash_analysis bool_analysis) (analysis_results oa)
         (31 * hash_str (inp oa) + hash_str (normalized_input oa))), st).
Proof.
  intros Ha. unfold WordAnalysis__hash__, bind.
  rewrite (deref_Some _ _ _ Ha). reflexivity.
Qed.

Lemma same_objects_lookup (st st' : State) (a : loc) (oa : WordAnalysis) :
  same_objects st st' -> heap st !! a = Some oa ->
  exists oa', heap st' !! a = Some oa' /\ same_fields oa oa'.
Proof. intros H Ha. exact (Forall2_lookup_l _ _ _ _ _ H Ha). Qed.

(** One more call of [__next__] yields the element under the index, until
    the index reaches the end. *)
Lemma drain_from (fuel : nat) :
  forall (k : nat) (l : loc) (st : State) (o : WordAnalysis),
    heap st !! l = Some o ->
    index o = Z.of_nat k ->
    (k <= length (analysis_results o))%nat ->
    (length (analysis_results o) - k < fuel)%nat ->
    fst (drain fuel l st) = Ok (Some (drop k (analysis_results o))).
Proof.
  induction fuel as [| fuel IH]; intros k l st o Hl Hi Hk Hf; [lia |].
  simpl. unfold WordAnalysis__next__ at 1. unfold bind at 1.
  rewrite (deref_Some _ _ _ Hl), Hi. unfold len.
  destruct (Nat.eq_dec k (length (analysis_results o))) as [-> | Hne].
  - rewrite Z.ltb_irrefl. simpl. rewrite drop_all. reflexivity.
  - assert (Hlt : (k < length (analysis_results o))%nat) by lia.
    replace (Z.of_nat k <? Z.of_nat (length (analysis_results o))) with true
      by (symmetry; apply Z.ltb_lt; lia).
    destruct (lookup_lt_is_Some_2 _ _ Hlt) as [x Hx].
    unfold bind, lift. rewrite (getitem_lookup _ _ _ Hx).
    unfold set_index. rewrite Hl. unfold ret.
    set (o' := {| inp := inp o; analysis_results := analysis_results o;
                  normalized_input := normalized_input o;
                  index := Z.of_nat k + 1 |}).
    set (st' := {| heap := <[l := o']> (heap st); trace := trace st |}).
    assert (Hl' : heap st' !! l = Some o').
    { apply list_lookup_insert_eq. exact (lookup_lt_Some _ _ _ Hl). }
    specialize (IH (S k) l st' o' Hl').
    simpl in IH. rewrite (drop_S _ _ _ Hx).
    destruct (drain fuel l st') as [r st''].
    simpl in IH. rewrite IH by lia. reflexivity.
Qed.

Lemma for_each_all (fuel : nat) (l : loc) (st : State) (o : WordAnalysis) :
  heap st !! l = Some o ->
  (length (analysis_results o) < fuel)%nat ->
  fst (for_each fuel l st) = Ok (Some (analysis_results o)).
Proof.
  intros Hl Hf. unfold for_each, WordAnalysis__iter__, bind, set_index.
  rewrite Hl. unfold ret.
  set (o' := {| inp := inp o; analysis_results := analysis_results o;
                normalized_input := normalized_input o; index := 0 |}).
  set (st' := {| heap := <[l := o']> (heap st); trace := trace st |}).
  assert (Hl' : heap st' !! l = Some o').
  { apply list_lookup_insert_eq. exact (lookup_lt_Some _ _ _ Hl). }
  exact (drain_from fuel 0 l st' o' Hl' eq_refl ltac:(simpl; lia)
           ltac:(simpl; lia)).
Qed.

(** C7. [is_correct] answers true if and only if the candidate collection is
    non-empty and the root item of its first element is not the unknown
    marker. *)
Theorem is_correct_iff (st : State) (self : loc) (o : WordAnalysis) :
  heap st !! self = Some o ->
  exists b : bool,
    is_correct self st = (Ok b, st)
    /\ (b = true <->
        exists a rest,
          analysis_results o = a :: rest
          /\ DictionaryItem_is_unknown (item a) = false).
Proof.
  intros Hl. unfold is_correct, bind. rewrite (deref_Some _ _ _ Hl).
  destruct (analysis_results o) as [| a rest] eqn:E.
  - exists false. split; [reflexivity |].
    split; [discriminate | intros (a & rest & Hnil & _); discriminate].
  - exists (negb (SingleAnalysis_is_unknown a)). split; [reflexivity |].
    unfold SingleAnalysis_is_unknown. split.
    + intros Hb. exists a, rest. split; [reflexivity |].
      destruct (DictionaryItem_is_unknown (item a)); [discriminate | reflexivity].
    + intros (a' & rest' & Hc & Hu). injection Hc as <- <-.
      rewrite Hu. reflexivity.
Qed.

Lemma is_correct_iff_witness :
  exists b : bool,
    is_correct 1%nat Example.evi_state = (Ok b, Example.evi_state)
    /\ (b = true <->
        exists a rest,
          analysis_results (Example.evi_object 0) = a :: rest
          /\ DictionaryItem_is_unknown (item a) = false).
Proof.
  exact (is_correct_iff Example.evi_state 1%nat (Example.evi_object 0) eq_refl).
Defined.

(** C10. Equality and hashing of [WordAnalysis] look at the input, the
    normalized input and the ordered analyses and at nothing else: two
    objects are equal exactly when the three agree, equal objects hash
    alike, and where the iteration index stands changes neither the
    answer of [__eq__], nor the hash, nor what a [for] loop over the
    object yields, which is the analyses in order. *)
Theorem equality_and_hash_are_structural
    (st : State) (a b : loc) (oa ob : WordAnalysis) :
  heap st !! a = Some oa ->
  heap st !! b = Some ob ->
  (exists e : bool,
      WordAnalysis__eq__ a (WordAnalysisObject b) st = (Ok e, st)
      /\ (e = true <->
          inp oa = inp ob
          /\ normalized_input oa = normalized_input ob
          /\ analysis_results oa = analysis_results ob)
      /\ (e = true -> fst (hash a st) = fst (hash b st)))
  /\ (forall st' : State,
        same_objects st st' ->
        fst (WordAnalysis__eq__ a (WordAnalysisObject b) st')
        = fst (WordAnalysis__eq__ a (WordAnalysisObject b) st)
        /\ fst (hash a st') = fst (hash a st)
        /\ forall fuel : nat,
             (length (analysis_results oa) < fuel)%nat ->
             fst (for_each fuel a st') = Ok (Some (analysis_results oa))).
Proof.
  intros Ha Hb. split.
  - eexists. split; [exact (eq_value st a b oa ob Ha Hb) |].
    assert (Hiff :
      Nat.eqb a b
      || (bool_decide (inp oa = inp ob)
          && bool_decide (normalized_input oa = normalized_input ob)
          && bool_decide (analysis_results oa = analysis_results ob)) = true
      <-> inp oa = inp ob /\ normalized_input oa = normalized_input ob
          /\ analysis_results oa = analysis_results ob).
    { split.
      - intros H. apply orb_true_iff in H as [H | H].
        + apply Nat.eqb_eq in H. subst b.
          assert (oa = ob) by congruence. subst ob. auto.
        + apply andb_true_iff in H as [H H3].
          apply andb_true_iff in H as [H1 H2].
          apply bool_decide_eq_true in H1, H2, H3. auto.
      - intros (H1 & H2 & H3). apply orb_true_iff. right.
        rewrite !andb_true_iff, !bool_decide_eq_true. auto. }
    split; [exact Hiff |].
    intros He. apply Hiff in He as (H1 & H2 & H3).
    rewrite (hash_value st a oa Ha), (hash_value st b ob Hb). simpl.
    rewrite H1, H2, H3. reflexivity.
  - intros st' Hsame.
    destruct (same_objects_lookup st st' a oa Hsame Ha)
      as (oa' & Ha' & Ia & Ra & Na).
    destruct (same_objects_lookup st st' b ob Hsame Hb)
      as (ob' & Hb' & Ib & Rb & Nb).
    repeat split.
    + rewrite (eq_value st' a b oa' ob' Ha' Hb'), (eq_value st a b oa ob Ha Hb).
      simpl. rewrite Ia, Ra, Na, Ib, Rb, Nb. reflexivity.
    + rewrite (hash_value st' a oa' Ha'), (hash_value st a oa Ha).
      simpl. rewrite Ia, Ra, Na. reflexivity.
    + intros fuel Hf. rewrite Ra in Hf |- *.
      exact (for_each_all fuel a st' oa' Ha' Hf).
Qed.

End WordAnalysisFacts.

Lemma equality_and_hash_are_structural_witness :
  let hash := WordAnalysis__hash__ Example.hash_str Example.hash_analysis
                Example.bool_analysis in
  (exists e : bool,
      WordAnalysis__eq__ 1%nat (WordAnalysisObject 2%nat) Example.evi_state
      = (Ok e, Example.evi_state)
      /\ (e = true <->
          inp (Example.evi_object 0) = inp (Example.evi_object 2)
          /\ normalized_input (Example.evi_object 0)
             = normalized_input (Example.evi_object 2)
          /\ analysis_results (Example.evi_object 0)
             = analysis_results (Example.evi_object 2))
      /\ (e = true ->
          fst (hash 1%nat Example.evi_state)
          = fst (hash 2%nat Example.evi_state)))
  /\ (forall st' : State,
        same_objects Example.evi_state st' ->
        fst (WordAnalysis__eq__ 1%nat (WordAnalysisObject 2%nat) st')
        = fst (WordAnalysis__eq__ 1%nat (WordAnalysisObject 2%nat)
                 Example.evi_state)
        /\ fst (hash 1%nat st') = fst (hash 1%nat Example.evi_state)
        /\ forall fuel : nat,
             (length (analysis_results (Example.evi_object 0)) < fuel)%nat ->
             fst (for_each fuel 1%nat st')
             = Ok (Some (analysis_results (Example.evi_object 0)))).
Proof.
  exact (equality_and_hash_are_structural
           Example.hash_str Example.hash_analysis Example.bool_analysis
           Example.evi_state 1%nat 2%nat
           (Example.evi_object 0) (Example.evi_object 2) eq_refl eq_refl).
Defined.

(** * More of [WordAnalysis] *)

(** The object with its cursor moved. *)
Lemma same_fields_refl (o : WordAnalysis) : same_fields o o.
Proof. repeat split. Qed.

Lemma same_objects_refl (st : State) : same_objects st st.
Proof. apply Forall_Forall2_diag, Forall_forall. intros o _. apply same_fields_refl. Qed.

Lemma same_objects_set_index (st : State) (l : loc) (o : WordAnalysis) (i : Z) :
  heap st !! l = Some o ->
  same_objects st
    {| heap := <[l := {| inp := inp o;
                         analysis_results := analysis_results o;
                         normalized_input := normalized_input o;
                         index := i |}]> (heap st);
       trace := trace st |}.
Proof.
  intros Hl. unfold same_objects. simpl.
  rewrite <- (list_insert_id (heap st) l o Hl) at 1.
  apply Forall2_insert; [apply same_objects_refl | repeat split].
Qed.

(** Where a run of [next] calls leaves the store: the cursor at the end. *)
Lemma drain_run (fuel : nat) :
  forall (k : nat) (l : loc) (st : State) (o : WordAnalysis),
    heap st !! l = Some o ->
    index o = Z.of_nat k ->
    (k <= length (analysis_results o))%nat ->
    (length (analysis_results o) - k < fuel)%nat ->
    drain fuel l st =
    (Ok (Some (drop k (analysis_results o))),
     {| heap := <[l := {| inp := inp o;
                          analysis_results := analysis_results o;
                          normalized_input := normalized_input o;
                          index := len (analysis_results o) |}]> (heap st);
        trace := trace st |}).
Proof.
  induction fuel as [| fuel IH]; intros k l st o Hl Hi Hk Hf; [lia |].
  simpl. unfold WordAnalysis__next__ at 1. unfold bind at 1.
  rewrite (deref_Some _ _ _ Hl), Hi. unfold len.
  destruct (Nat.eq_dec k (length (analysis_results o))) as [-> | Hne].
  - rewrite Z.ltb_irrefl. simpl. rewrite drop_all.
    rewrite list_insert_id; [destruct st; reflexivity |].
    etrans; [exact Hl |]. f_equal. destruct o; simpl in *. congruence.
  - assert (Hlt : (k < length (analysis_results o))%nat) by lia.
    replace (Z.of_nat k <? Z.of_nat (length (analysis_results o))) with true
      by (symmetry; apply Z.ltb_lt; lia).
    destruct (lookup_lt_is_Some_2 _ _ Hlt) as [x Hx].
    unfold bind, lift. rewrite (getitem_lookup _ _ _ Hx).
    unfold set_index. rewrite Hl. unfold ret.
    set (o' := {| inp := inp o; analysis_results := analysis_results o;
                  normalized_input := normalized_input o;
                  index := Z.of_nat k + 1 |}).
    set (st' := {| heap := <[l := o']> (heap st); trace := trace st |}).
    assert (Hl' : heap st' !! l = Some o').
    { apply list_lookup_insert_eq. exact (lookup_lt_Some _ _ _ Hl). }
    rewrite (IH (S k) l st' o' Hl') by (simpl; lia).
    simpl. rewrite (drop_S _ _ _ Hx), list_insert_insert_eq. reflexivity.
Qed.

Lemma for_each_run (fuel : nat) (l : loc) (st : State) (o : WordAnalysis) :
  heap st !! l = Some o ->
  (length (analysis_results o) < fuel)%nat ->
  for_each fuel l st =
  (Ok (Some (analysis_results o)),
   {| heap := <[l := {| inp := inp o;
                        analysis_results := analysis_results o;
                        normalized_input := normalized_input o;
                        index := len (analysis_results o) |}]> (heap st);
      trace := trace st |}).
Proof.
  intros Hl Hf. unfold for_each, WordAnalysis__iter__, bind, set_index.
  rewrite Hl. unfold ret.
  set (o' := {| inp := inp o; analysis_results := analysis_results o;
                normalized_input := normalized_input o; index := 0 |}).
  set (st' := {| heap := <[l := o']> (heap st); trace := trace st |}).
  assert (Hl' : heap st' !! l = Some o').
  { apply list_lookup_insert_eq. exact (lookup_lt_Some _ _ _ Hl). }
  rewrite (drain_run fuel 0 l st' o' Hl' eq_refl ltac:(simpl; lia)
             ltac:(simpl; lia)).
  simpl. rewrite list_insert_insert_eq. reflexivity.
Qed.

(** X15. A [for] loop over an object changes nothing but that object's
    cursor, which it leaves at the end; no collaborator is called. *)
Theorem iteration_moves_only_the_cursor
    (fuel : nat) (l : loc) (st : State) (o : WordAnalysis) :
  heap st !! l = Some o ->
  (length (analysis_results o) < fuel)%nat ->
  let st' := snd (for_each fuel l st) in
  same_objects st st'
  /\ trace st' = trace st
  /\ (forall l', l' <> l -> heap st' !! l' = heap st !! l')
  /\ (exists o', heap st' !! l = Some o'
                 /\ index o' = len (analysis_results o)).
Proof.
  intros Hl Hf st'. unfold st'. rewrite (for_each_run fuel l st o Hl Hf).
  simpl. repeat split.
  - exact (same_objects_set_index st l o _ Hl).
  - intros l' Hne. apply list_lookup_insert_ne. congruence.
  - eexists. split; [apply list_lookup_insert_eq, (lookup_lt_Some _ _ _ Hl) |].
    reflexivity.
Qed.

(** X16. Once a loop has run to its end the iterator stays exhausted: every
    further [next] raises [StopIteration] and changes nothing. *)
Theorem exhausted_iterator_stays_exhausted
    (fuel : nat) (l : loc) (st : State) (o : WordAnalysis) :
  heap st !! l = Some o ->
  (length (analysis_results o) < fuel)%nat ->
  let st' := snd (for_each fuel l st) in
  WordAnalysis__next__ l st' = (Raise StopIteration, st')
  /\ forall fuel', drain (S fuel') l st' = (Ok (Some []), st').
Proof.
  intros Hl Hf st'. unfold st'. rewrite (for_each_run fuel l st o Hl Hf).
  simpl snd.
  set (o' := {| inp := inp o; analysis_results := analysis_results o;
                normalized_input := normalized_input o;
                index := len (analysis_results o) |}).
  set (st1 := {| heap := <[l := o']> (heap st); trace := trace st |}).
  assert (Hl' : heap st1 !! l = Some o').
  { apply list_lookup_insert_eq. exact (lookup_lt_Some _ _ _ Hl). }
  assert (Hnext : WordAnalysis__next__ l st1 = (Raise StopIteration, st1)).
  { unfold WordAnalysis__next__, bind. rewrite (deref_Some _ _ _ Hl').
    simpl. rewrite Z.ltb_irrefl. reflexivity. }
  split; [exact Hnext |].
  intros fuel'. simpl. rewrite Hnext. reflexivity.
Qed.

(** X18. [__iter__] hands back the object itself, so two iterators over one
    object are one cursor: taking a second iterator rewinds the first. *)
Theorem iterators_share_the_cursor
    (l : loc) (st : State) (o : WordAnalysis)
    (a : SingleAnalysis) (rest : list SingleAnalysis) :
  heap st !! l = Some o ->
  analysis_results o = a :: rest ->
  fst ((let* it1 := WordAnalysis__iter__ l in
        let* x := WordAnalysis__next__ it1 in
        let* it2 := WordAnalysis__iter__ l in
        let* y := WordAnalysis__next__ it1 in
        ret (it1, it2, x, y)) st)
  = Ok (l, l, a, a).
Proof.
  intros Hl Hr.
  assert (Hstep : forall st0 o0,
    heap st0 !! l = Some o0 -> analysis_results o0 = a :: rest ->
    exists st1 o1,
      (let* it := WordAnalysis__iter__ l in
       let* x := WordAnalysis__next__ it in ret (it, x)) st0
      = (Ok (l, a), st1)
      /\ heap st1 !! l = Some o1 /\ analysis_results o1 = a :: rest).
  { intros st0 o0 H0 R0.
    assert (Hlt : (l < length (heap st0))%nat) by exact (lookup_lt_Some _ _ _ H0).
    unfold WordAnalysis__iter__, WordAnalysis__next__, bind, set_index, ret,
      deref, lift.
    rewrite H0. simpl heap. rewrite (list_lookup_insert_eq _ _ _ Hlt).
    simpl. rewrite R0. simpl.
    rewrite (list_lookup_insert_eq _ _ _ Hlt). simpl.
    eexists _, _. split; [reflexivity |]. simpl.
    rewrite list_lookup_insert_eq by (rewrite length_insert; exact Hlt).
    split; reflexivity. }
  destruct (Hstep st o Hl Hr) as (st1 & o1 & H1 & Hl1 & Hr1).
  destruct (Hstep st1 o1 Hl1 Hr1) as (st2 & o2 & H2 & _ & _).
  unfold bind, ret in *.
  destruct (WordAnalysis__iter__ l st) as [[it1 |] s1] eqn:E1;
    [| discriminate].
  destruct (WordAnalysis__next__ it1 s1) as [[x |] s2] eqn:E2;
    [| discriminate].
  injection H1 as -> -> ->.
  destruct (WordAnalysis__iter__ l st1) as [[it2 |] s3] eqn:E3;
    [| discriminate].
  destruct (WordAnalysis__next__ it2 s3) as [[y |] s4] eqn:E4;
    [| discriminate].
  injection H2 as -> -> ->. rewrite E4. reflexivity.
Qed.

(** X17. Without a new [__iter__], [next] goes on from where the cursor
    stands: from cursor [k] the calls yield the analyses from position [k]
    on, then [StopIteration]. *)
Theorem next_resumes_at_the_cursor
    (fuel k : nat) (l : loc) (st : State) (o : WordAnalysis) :
  heap st !! l = Some o ->
  index o = Z.of_nat k ->
  (k <= length (analysis_results o))%nat ->
  (length (analysis_results o) - k < fuel)%nat ->
  fst (drain fuel l st) = Ok (Some (drop k (analysis_results o))).
Proof.
  intros Hl Hi Hk Hf. rewrite (drain_run fuel k l st o Hl Hi Hk Hf).
  reflexivity.
Qed.

(** X19. On objects of the store [__eq__] is an equivalence relation that
    reads the store without changing it, and it answers [False] to anything
    that is not a [WordAnalysis]. *)
Theorem eq_is_an_equivalence
    (st : State) (a b c : loc) (oa ob oc : WordAnalysis) :
  heap st !! a = Some oa ->
  heap st !! b = Some ob ->
  heap st !! c = Some oc ->
  WordAnalysis__eq__ a (WordAnalysisObject a) st = (Ok true, st)
  /\ WordAnalysis__eq__ a (WordAnalysisObject b) st
     = WordAnalysis__eq__ b (WordAnalysisObject a) st
  /\ (WordAnalysis__eq__ a (WordAnalysisObject b) st = (Ok true, st) ->
      WordAnalysis__eq__ b (WordAnalysisObject c) st = (Ok true, st) ->
      WordAnalysis__eq__ a (WordAnalysisObject c) st = (Ok true, st))
  /\ WordAnalysis__eq__ a OtherObject st = (Ok false, st).
Proof.
  intros Ha Hb Hc.
  assert (Htrue : forall x y ox oy,
    heap st !! x = Some ox -> heap st !! y = Some oy ->
    (WordAnalysis__eq__ x (WordAnalysisObject y) st = (Ok true, st)
     <-> same_fields ox oy)).
  { intros x y ox oy Hx Hy. rewrite (eq_value st x y ox oy Hx Hy).
    unfold same_fields. split.
    - intros H. injection H as H. apply orb_true_iff in H as [H | H].
      + apply Nat.eqb_eq in H. subst y.
        assert (ox = oy) by congruence. subst oy. auto.
      + apply andb_true_iff in H as [H H3].
        apply andb_true_iff in H as [H1 H2].
        apply bool_decide_eq_true in H1, H2, H3. auto.
    - intros (H1 & H2 & H3). do 2 f_equal. apply orb_true_iff. right.
      rewrite !andb_true_iff, !bool_decide_eq_true. auto. }
  repeat split.
  - apply (Htrue a a oa oa Ha Ha). repeat split.
  - rewrite (eq_value st a b oa ob Ha Hb), (eq_value st b a ob oa Hb Ha).
    do 2 f_equal. rewrite Nat.eqb_sym. f_equal.
    f_equal; [f_equal |]; apply bool_decide_ext; split; congruence.
  - intros Hab Hbc.
    apply (Htrue a b oa ob Ha Hb) in Hab as (A1 & A2 & A3).
    apply (Htrue b c ob oc Hb Hc) in Hbc as (B1 & B2 & B3).
    apply (Htrue a c oa oc Ha Hc). repeat split; congruence.
Qed.

Section RenderingFacts.

Variable str_analysis : SingleAnalysis -> str.

(** X20. What [__str__] prints is fixed by the three attributes [__eq__]
    compares: equal objects print alike, whatever their cursors, and
    printing leaves the store as it was. *)
Theorem equal_objects_print_alike
    (st : State) (a b : loc) (oa ob : WordAnalysis) :
  heap st !! a = Some oa ->
  heap st !! b = Some ob ->
  WordAnalysis__eq__ a (WordAnalysisObject b) st = (Ok true, st) ->
  exists s,
    WordAnalysis__str__ str_analysis a st = (Ok s, st)
    /\ WordAnalysis__str__ str_analysis b st = (Ok s, st).
Proof.
  intros Ha Hb Heq. rewrite (eq_value st a b oa ob Ha Hb) in Heq.
  injection Heq as Heq.
  assert (H : same_fields oa ob).
  { apply orb_true_iff in Heq as [H | H].
    - apply Nat.eqb_eq in H. subst b.
      assert (oa = ob) by congruence. subst ob. repeat split.
    - apply andb_true_iff in H as [H H3].
      apply andb_true_iff in H as [H1 H2].
      apply bool_decide_eq_true in H1, H2, H3. repeat split; assumption. }
  destruct H as (H1 & H2 & H3).
  unfold WordAnalysis__str__, bind.
  rewrite (deref_Some _ _ _ Ha), (deref_Some _ _ _ Hb).
  eexists. split; [reflexivity |]. rewrite H1, H2, H3. reflexivity.
Qed.

End RenderingFacts.

(** * More of [Builder] *)

Lemma builder_chain_fields {RootLexicon : Type}
    (calls : list (BuilderCall RootLexicon)) :
  forall b0 : Builder RootLexicon,
    let b := builder_chain b0 calls in
    b_tokenizer b = b_tokenizer b0
    /\ b_lexicon b = last_lexicon calls (b_lexicon b0)
    /\ informal_analysis b
       = informal_analysis b0 || existsb calls_informal calls
    /\ ignore_diacritics_in_analysis b
       = ignore_diacritics_in_analysis b0
         || existsb calls_ignore_diacritics calls
    /\ use_dynamic_cache b = use_dynamic_cache b0
    /\ use_unidentifiedTokenAnalyzer b = use_unidentifiedTokenAnalyzer b0.
Proof.
  induction calls as [| c cs IH]; intros b0.
  - simpl. rewrite !orb_false_r. repeat split.
  - unfold builder_chain. simpl fold_left.
    destruct (IH (builder_call b0 c)) as (T & L & I & D & C & U).
    unfold builder_chain in *. cbv zeta. rewrite T, L, I, D, C, U.
    destruct c; simpl; rewrite ?orb_true_r, ?orb_false_r;
      repeat split; reflexivity.
Qed.

(** The sentinel keeps its attributes whatever is iterated. *)
Lemma set_index_keeps_loaded (l : loc) (i : Z) (st : State) :
  loaded st -> loaded (snd (set_index l i st)).
Proof.
  intros [i0 Hi0]. unfold set_index.
  destruct (heap st !! l) as [o |] eqn:Hl; [| exists i0; exact Hi0].
  simpl. unfold loaded. simpl heap.
  destruct (decide (l = EMPTY_INPUT_RESULT)) as [-> | Hne].
  - exists i. rewrite list_lookup_insert_eq by exact (lookup_lt_Some _ _ _ Hl).
    assert (E : Some o = Some {| inp := []; analysis_results := [];
                                 normalized_input := []; index := i0 |})
      by (etrans; [symmetry; exact Hl | exact Hi0]).
    injection E as ->. reflexivity.
  - exists i0. rewrite list_lookup_insert_ne by exact Hne. exact Hi0.
Qed.

Lemma next_keeps_loaded (l : loc) (st : State) :
  loaded st -> loaded (snd (WordAnalysis__next__ l st)).
Proof.
  intros H. unfold WordAnalysis__next__, bind, deref.
  destruct (heap st !! l) as [o |]; [| exact H].
  destruct (index o <? len (analysis_results o)); [| exact H].
  unfold lift. destruct (getitem (analysis_results o) (index o)); [| exact H].
  pose proof (set_index_keeps_loaded l (index o + 1) st H) as H'.
  destruct (set_index l (index o + 1) st) as [[[] |] st']; exact H'.
Qed.

Lemma drain_keeps_loaded (fuel : nat) (l : loc) :
  forall st, loaded st -> loaded (snd (drain fuel l st)).
Proof.
  induction fuel as [| fuel IH]; intros st H; [exact H |].
  simpl. pose proof (next_keeps_loaded l st H) as H'.
  destruct (WordAnalysis__next__ l st) as [[x | e] st'].
  - specialize (IH st' H').
    destruct (drain fuel l st') as [[[r |] | e] st'']; exact IH.
  - destruct e; exact H'.
Qed.

Lemma for_each_keeps_loaded (fuel : nat) (l : loc) (st : State) :
  loaded st -> loaded (snd (for_each fuel l st)).
Proof.
  intros H. unfold for_each, WordAnalysis__iter__, bind.
  pose proof (set_index_keeps_loaded l 0 st H) as H'.
  destruct (set_index l 0 st) as [[[] |] st']; [| exact H'].
  unfold ret. exact (drain_keeps_loaded fuel l st' H').
Qed.

(** ** Finding and cutting at the apostrophe *)

Lemma find_from_absent (c : N) (s : str) (i : Z) :
  c ∉ s -> find_from i c s = -1.
Proof.
  revert i. induction s as [| x r IH]; intros i Hn; [reflexivity |].
  simpl. apply not_elem_of_cons in Hn as [Hx Hr].
  destruct (N.eqb_spec x c) as [E | _]; [congruence | exact (IH _ Hr)].
Qed.

Lemma find_from_first (c : N) (pre post : str) (i : Z) :
  c ∉ pre -> find_from i c (pre ++ c :: post) = i + len pre.
Proof.
  revert i. induction pre as [| x r IH]; intros i Hn; simpl.
  - rewrite N.eqb_refl. unfold len. simpl length. lia.
  - apply not_elem_of_cons in Hn as [Hx Hr].
    destruct (N.eqb_spec x c) as [E | _]; [congruence |].
    rewrite (IH _ Hr). unfold len. simpl length. lia.
Qed.

Lemma len_app {A} (l k : list A) : len (l ++ k) = len l + len k.
Proof. unfold len. rewrite length_app. lia. Qed.

Lemma len_cons {A} (x : A) (l : list A) : len (x :: l) = 1 + len l.
Proof. unfold len. simpl length. lia. Qed.

Lemma len_nonneg {A} (l : list A) : 0 <= len l.
Proof. unfold len. lia. Qed.

Lemma slice_prefix {A} (pre rest : list A) :
  slice (pre ++ rest) 0 (len pre) = pre.
Proof.
  unfold slice, clip. rewrite len_app.
  pose proof (len_nonneg pre). pose proof (len_nonneg rest).
  replace (0 <? 0) with false by reflexivity.
  replace (len pre <? 0) with false by (symmetry; apply Z.ltb_ge; lia).
  rewrite Z.min_l, Z.min_l by lia. simpl drop.
  rewrite Z.sub_0_r. unfold len. rewrite Nat2Z.id.
  apply take_app_length.
Qed.

(** ** [TurkishMorphology] *)

Section MorphologyFacts.

Variable INSTANCE : TurkishAlphabet.
Variable str_lower : str -> str.
Variable TextUtil_normalize_apostrophes : str -> str.
Variable p3sg : Morpheme.
Variables RootLexicon Morphotactics WordGenerator : Type.

Local Abbreviation Self :=
  (TurkishMorphology RootLexicon Morphotactics WordGenerator).
Local Abbreviation normalized :=
  (normalize_for_analysis INSTANCE str_lower TextUtil_normalize_apostrophes).
Local Abbreviation splitter := (analyze_words_with_apostrophe INSTANCE p3sg).
Local Abbreviation token_branch :=
  (analyze_token INSTANCE str_lower TextUtil_normalize_apostrophes p3sg).
Local Abbreviation uncached :=
  (analyze_without_cache INSTANCE str_lower TextUtil_normalize_apostrophes p3sg).
Local Abbreviation analyze_word :=
  (analyze INSTANCE str_lower TextUtil_normalize_apostrophes p3sg).

(** *** The Apostrophe Splitter *)

Lemma splitter_rejects (self : Self) (word : str) (st : State) :
  find word APOSTROPHE <= 0 \/ find word APOSTROPHE = len word - 1 ->
  splitter self word st = (Ok [], st).
Proof.
  intros H. unfold analyze_words_with_apostrophe.
  destruct H as [H | H].
  - replace (0 <? find word APOSTROPHE) with false
      by (symmetry; apply Z.ltb_ge; exact H).
    reflexivity.
  - rewrite H, Z.eqb_refl, andb_false_r. reflexivity.
Qed.

(** C4. A word whose apostrophe is its first character, or its last, or
    that has none, gets the empty sequence from the Apostrophe Splitter:
    no exception, and the analyzer is not consulted. *)
Theorem splitter_malformed_empty (self : Self) (word : str) (st : State) :
  APOSTROPHE ∉ word
  \/ (exists rest, word = APOSTROPHE :: rest)
  \/ (exists pre, word = pre ++ [APOSTROPHE] /\ APOSTROPHE ∉ pre) ->
  splitter self word st = (Ok [], st).
Proof.
  intros [Habsent | [[rest ->] | (pre & -> & Hpre)]];
    apply splitter_rejects; unfold find.
  - left. rewrite (find_from_absent _ _ _ Habsent). lia.
  - left. simpl. rewrite ?N.eqb_refl. lia.
  - right. rewrite (find_from_first _ _ _ _ Hpre), len_app.
    unfold len. simpl length. lia.
Qed.

Lemma splitter_accepts (self : Self) (pre post : str) (st : State) :
  APOSTROPHE ∉ pre -> pre <> [] -> post <> [] ->
  let word := pre ++ APOSTROPHE :: post in
  let without_quote := replace word APOSTROPHE [] in
  splitter self word st =
  (Ok (List.filter (apostrophe_filter p3sg (normalize INSTANCE pre))
         (RuleBasedAnalyzer_analyze (analyzer self) without_quote)),
   after_call st (AnalyzerCall without_quote)).
Proof.
  intros Hpre Hne Hpost word without_quote.
  unfold analyze_words_with_apostrophe.
  fold word. fold without_quote.
  assert (Hfind : find word APOSTROPHE = len pre).
  { unfold find, word. rewrite (find_from_first _ _ _ _ Hpre). lia. }
  rewrite Hfind.
  assert (Hlen : len word = len pre + 1 + len post).
  { unfold word. rewrite len_app, len_cons. lia. }
  assert (0 < len pre) by (destruct pre; [congruence | apply len_cons_pos]).
  assert (0 < len post) by (destruct post; [congruence | apply len_cons_pos]).
  replace (0 <? len pre) with true by (symmetry; apply Z.ltb_lt; lia).
  replace (len pre =? len word - 1) with false
    by (symmetry; apply Z.eqb_neq; lia).
  simpl andb. cbv iota. cbv zeta. simpl se_stem.
  unfold word at 1. rewrite slice_prefix.
  unfold bind, call_analyzer, emit, ret, bind. fold (after_call st (AnalyzerCall without_quote)).
  destruct (RuleBasedAnalyzer_analyze (analyzer self) without_quote)
    as [| p ps] eqn:E.
  - reflexivity.
  - replace (len (p :: ps) =? 0) with false
      by (symmetry; apply Z.eqb_neq; pose proof (len_cons_pos p ps); lia).
    reflexivity.
Qed.

(** C3, as the code has it. On a word [pre ' post] with both parts
    non-empty, [pre] free of apostrophes, the Apostrophe Splitter returns
    exactly those analyses of the word without its apostrophes whose root
    item has primary part-of-speech noun and that carry the
    third-person-singular-possessive morpheme or have the normalized [pre]
    as their stem; every such analysis is returned. *)
Theorem splitter_filters_on_root_pos
    (self : Self) (pre post : str) (st : State) :
  APOSTROPHE ∉ pre -> pre <> [] -> post <> [] ->
  let word := pre ++ APOSTROPHE :: post in
  let parses :=
    RuleBasedAnalyzer_analyze (analyzer self) (replace word APOSTROPHE []) in
  exists r st',
    splitter self word st = (Ok r, st')
    /\ forall p,
         p ∈ r <->
         p ∈ parses /\ primary_pos (item p) = Noun
         /\ (p3sg ∈ morphemes p \/ get_stem p = normalize INSTANCE pre).
Proof.
  intros Hpre Hne Hpost word parses.
  eexists _, _. split; [exact (splitter_accepts self pre post st Hpre Hne Hpost) |].
  intros p. fold word. fold parses.
  rewrite list_elem_of_In, filter_In, <- list_elem_of_In.
  unfold apostrophe_filter, contains_morpheme.
  rewrite andb_true_iff, orb_true_iff, !bool_decide_eq_true.
  reflexivity.
Qed.

(** *** The token branch of [analyze_without_cache] *)

Lemma splitter_total (self : Self) (word : str) (st : State) :
  exists r calls,
    splitter self word st = (Ok r, after_calls st calls)
    /\ forall t, UnidentifiedCall t ∉ calls.
Proof.
  unfold analyze_words_with_apostrophe.
  destruct ((0 <? find word APOSTROPHE)
            && negb (find word APOSTROPHE =? len word - 1)).
  - cbv zeta. unfold bind, call_analyzer, emit, ret, bind.
    set (parses := RuleBasedAnalyzer_analyze _ _).
    exists (if len parses =? 0 then []
            else List.filter
                   (apostrophe_filter p3sg
                      (normalize INSTANCE (slice word 0 (find word APOSTROPHE))))
                   parses),
           [AnalyzerCall (replace word APOSTROPHE [])].
    split.
    + destruct (len parses =? 0); reflexivity.
    + intros t Ht. apply list_elem_of_singleton in Ht. discriminate.
  - exists [], []. split.
    + unfold ret, after_calls. rewrite app_nil_r. destruct st; reflexivity.
    + intros t Ht. inversion Ht.
Qed.

Lemma first_pass_total (self : Self) (s : str) (st : State) :
  exists s' r calls,
    first_pass INSTANCE p3sg self s st = (Ok (s', r), after_calls st calls)
    /\ forall t, UnidentifiedCall t ∉ calls.
Proof.
  unfold first_pass. destruct (contains_apostrophe INSTANCE s).
  - destruct (splitter_total self (normalize_apostrophe INSTANCE s) st)
      as (r & calls & Hrun & Hcalls).
    exists (normalize_apostrophe INSTANCE s), r, calls.
    split; [| exact Hcalls]. unfold bind. rewrite Hrun. reflexivity.
  - exists s, (RuleBasedAnalyzer_analyze (analyzer self) s), [AnalyzerCall s].
    split; [reflexivity |].
    intros t Ht. apply list_elem_of_singleton in Ht. discriminate.
Qed.

Lemma drop_lone_unknown_value (r : list SingleAnalysis) (st : State) :
  drop_lone_unknown r st =
  (Ok match r with
      | [a] => if DictionaryItem_is_unknown (item a) then [] else r
      | _ => r
      end, st).
Proof.
  unfold drop_lone_unknown. destruct r as [| a [| b r]].
  - reflexivity.
  - simpl. unfold bind, lift. simpl.
    destruct (DictionaryItem_is_unknown (item a)); reflexivity.
  - replace (len (a :: b :: r) =? 1) with false; [reflexivity |].
    symmetry. apply Z.eqb_neq. rewrite !len_cons.
    pose proof (len_nonneg r). lia.
Qed.

(** What the token branch does once normalization has left something. *)
Lemma token_branch_run
    (self : Self) (tok : Token) (st st1 : State)
    (s' : str) (r0 : list SingleAnalysis) :
  normalized (content tok) <> [] ->
  first_pass INSTANCE p3sg self (normalized (content tok)) st
  = (Ok (s', r0), st1) ->
  let fb := (len r0 =? 0) && use_unidentified_token_analyzer self in
  let r1 :=
    if fb
    then UnidentifiedTokenAnalyzer_analyze (unidentified_token_analyzer self) tok
    else r0 in
  let st2 := if fb then after_call st1 (UnidentifiedCall tok) else st1 in
  let r2 :=
    match r1 with
    | [a] => if DictionaryItem_is_unknown (item a) then [] else r1
    | _ => r1
    end in
  token_branch self (Some tok) st =
  (Ok (length (heap st2)),
   {| heap := heap st2 ++ [ {| inp := content tok;
                              analysis_results := r2;
                              normalized_input := s';
                              index := 0 |} ];
      trace := trace st2 |}).
Proof.
  intros Hne Hfirst fb r1 st2 r2. unfold analyze_token. cbv zeta.
  replace (len (normalized (content tok)) =? 0) with false.
  2:{ symmetry. apply Z.eqb_neq. intros E. apply Hne. exact (len_zero_nil _ E). }
  unfold bind at 1. rewrite Hfirst. simpl fst. simpl snd.
  unfold bind at 1. unfold fallback. fold fb.
  assert (Hfb : (if fb then call_unidentified self tok else ret r0) st1
                = (Ok r1, st2)).
  { unfold r1, st2. destruct fb; reflexivity. }
  rewrite Hfb. unfold bind. rewrite drop_lone_unknown_value. reflexivity.
Qed.

Lemma empty_normalization_gives_sentinel
    (self : Self) (tok : Token) (st : State) :
  normalized (content tok) = [] ->
  token_branch self (Some tok) st = (Ok EMPTY_INPUT_RESULT, st).
Proof. intros E. unfold analyze_token. rewrite E. reflexivity. Qed.

Lemma sentinel_has_no_candidates (st : State) :
  loaded st ->
  exists o, heap st !! EMPTY_INPUT_RESULT = Some o /\ analysis_results o = [].
Proof. intros [i Hi]. eexists. split; [exact Hi | reflexivity]. Qed.

Lemma loaded_initially : loaded initial_state.
Proof. exists 0. reflexivity. Qed.

(** C5. When the analyses left after the analyzer and the fallback are a
    single one whose root item is the unknown marker, the result of the
    call carries no analysis at all. *)
Theorem lone_unknown_is_dropped
    (self : Self) (tok : Token) (st st1 st2 : State)
    (s' : str) (r0 : list SingleAnalysis) (a : SingleAnalysis) :
  normalized (content tok) <> [] ->
  first_pass INSTANCE p3sg self (normalized (content tok)) st
  = (Ok (s', r0), st1) ->
  fallback self tok r0 st1 = (Ok [a], st2) ->
  DictionaryItem_is_unknown (item a) = true ->
  exists l st',
    token_branch self (Some tok) st = (Ok l, st')
    /\ heap st' !! l = Some {| inp := content tok;
                               analysis_results := [];
                               normalized_input := s';
                               index := 0 |}.
Proof.
  intros Hne Hfirst Hfb Hunk.
  pose proof (token_branch_run self tok st st1 s' r0 Hne Hfirst) as Hrun.
  cbv zeta in Hrun. unfold fallback in Hfb.
  destruct ((len r0 =? 0) && use_unidentified_token_analyzer self).
  - unfold call_unidentified, bind, emit, ret in Hfb.
    injection Hfb as Hr _. rewrite Hr, Hunk in Hrun.
    eexists _, _. split; [exact Hrun |].
    simpl heap. apply list_lookup_middle. reflexivity.
  - unfold ret in Hfb. injection Hfb as Hr _. rewrite Hr, Hunk in Hrun.
    eexists _, _. split; [exact Hrun |].
    simpl heap. apply list_lookup_middle. reflexivity.
Qed.

(** C6. On a token that normalizes to something, the Unidentified Token
    Analyzer is called, once and with that very token, exactly when the
    analyzer (or the apostrophe path) gave nothing and the fallback is
    enabled; with the fallback disabled an empty analyzer result gives a
    result without analyses. *)
Theorem fallback_called_iff
    (self : Self) (tok : Token) (st st1 : State)
    (s' : str) (r0 : list SingleAnalysis) :
  normalized (content tok) <> [] ->
  first_pass INSTANCE p3sg self (normalized (content tok)) st
  = (Ok (s', r0), st1) ->
  exists l st' before after,
    token_branch self (Some tok) st = (Ok l, st')
    /\ trace st1 = trace st ++ before
    /\ trace st' = trace st1 ++ after
    /\ (forall t, UnidentifiedCall t ∉ before)
    /\ (after = [UnidentifiedCall tok]
           /\ r0 = [] /\ use_unidentified_token_analyzer self = true
        \/ after = []
           /\ ~ (r0 = [] /\ use_unidentified_token_analyzer self = true))
    /\ (use_unidentified_token_analyzer self = false -> r0 = [] ->
        exists o, heap st' !! l = Some o /\ analysis_results o = []).
Proof.
  intros Hne Hfirst.
  pose proof (token_branch_run self tok st st1 s' r0 Hne Hfirst) as Hrun.
  cbv zeta in Hrun.
  destruct (first_pass_total self (normalized (content tok)) st)
    as (s'' & r' & before & Hfirst' & Hbefore).
  rewrite Hfirst in Hfirst'. injection Hfirst' as _ _ Hst1.
  destruct r0 as [| x r0];
    [destruct (use_unidentified_token_analyzer self) eqn:Hflag |].
  - (* nothing found, fallback enabled *)
    simpl in Hrun. eexists _, _, before, [UnidentifiedCall tok].
    split; [exact Hrun |]. split; [rewrite Hst1; reflexivity |].
    split; [reflexivity |]. split; [exact Hbefore |].
    split; [left; auto | discriminate].
  - (* nothing found, fallback disabled *)
    simpl in Hrun. eexists _, _, before, [].
    split; [exact Hrun |]. split; [rewrite Hst1; reflexivity |].
    split; [simpl; rewrite app_nil_r; reflexivity |].
    split; [exact Hbefore |].
    split; [right; split; [reflexivity | intros [_ H]; discriminate] |].
    intros _ _. eexists. split; [apply list_lookup_middle; reflexivity |].
    reflexivity.
  - (* something found *)
    replace (len (x :: r0) =? 0) with false in Hrun
      by (symmetry; apply Z.eqb_neq; pose proof (len_cons_pos x r0); lia).
    simpl andb in Hrun. cbv iota in Hrun.
    eexists _, _, before, [].
    split; [exact Hrun |]. split; [rewrite Hst1; reflexivity |].
    split; [simpl; rewrite app_nil_r; reflexivity |].
    split; [exact Hbefore |].
    split; [right; split; [reflexivity | intros [H _]; discriminate] |].
    intros _ H. discriminate.
Qed.

(** *** Words *)

Lemma token_branch_outcome (self : Self) (token : option Token) (st : State) :
  (token = None /\ token_branch self token st = (Raise AttributeError, st))
  \/ (exists tok l st',
        token = Some tok /\ token_branch self token st = (Ok l, st')).
Proof.
  destruct token as [tok |]; [right | left; split; reflexivity].
  exists tok.
  destruct (decide (normalized (content tok) = [])) as [E | Hne].
  - eexists _, _. split; [reflexivity |].
    exact (empty_normalization_gives_sentinel self tok st E).
  - destruct (first_pass_total self (normalized (content tok)) st)
      as (s' & r0 & calls & Hfirst & _).
    eexists _, _. split; [reflexivity |].
    exact (token_branch_run self tok st _ s' r0 Hne Hfirst).
Qed.

Lemma multi_token_result
    (self : Self) (w : str) (token : option Token) (st : State) :
  w <> [] ->
  len (tokenize (tokenizer self) w) <> 1 ->
  uncached self (Some w) token st =
  (Ok (length (heap st)),
   {| heap := heap st ++ [ {| inp := w; analysis_results := [];
                             normalized_input := w; index := 0 |} ];
      trace := trace st ++ [TokenizerCall w] |}).
Proof.
  intros Hw Hlen. unfold analyze_without_cache.
  destruct w as [| c w]; [congruence |]. simpl truthy. cbv iota.
  unfold bind, call_tokenizer, emit, ret, bind.
  apply Z.eqb_neq in Hlen. rewrite Hlen. reflexivity.
Qed.

Lemma single_token_result
    (self : Self) (w : str) (token : option Token) (tok : Token) (st : State) :
  w <> [] ->
  tokenize (tokenizer self) w = [tok] ->
  uncached self (Some w) token st =
  token_branch self (Some tok) (after_call st (TokenizerCall w)).
Proof.
  intros Hw Htok. unfold analyze_without_cache.
  destruct w as [| c w]; [congruence |]. simpl truthy. cbv iota.
  unfold bind, call_tokenizer, emit, ret, bind. rewrite Htok. reflexivity.
Qed.

Lemma uncached_outcome
    (self : Self) (word : option str) (token : option Token) (st : State) :
  (exists l st', uncached self word token st = (Ok l, st'))
  \/ uncached self word token st = (Raise AttributeError, st).
Proof.
  assert (Hbranch : forall st0,
    (exists l st', token_branch self token st0 = (Ok l, st'))
    \/ token_branch self token st0 = (Raise AttributeError, st0)).
  { intros st0.
    destruct (token_branch_outcome self token st0)
      as [[_ H] | (tok & l & st' & _ & H)]; [right | left]; eauto. }
  destruct word as [[| c w] |]; [exact (Hbranch st) | | exact (Hbranch st)].
  left.
  destruct (decide (len (tokenize (tokenizer self) (c :: w)) = 1)) as [E | Hne].
  - destruct (tokenize (tokenizer self) (c :: w)) as [| tok [| t2 ts]] eqn:Htok.
    + discriminate.
    + rewrite (single_token_result self (c :: w) token tok st
                 ltac:(discriminate) Htok).
      destruct (token_branch_outcome self (Some tok)
                  (after_call st (TokenizerCall (c :: w))))
        as [[H _] | (tok' & l & st' & _ & H)]; [discriminate | eauto].
    + rewrite !len_cons in E. pose proof (len_nonneg ts). lia.
  - eexists _, _.
    exact (multi_token_result self (c :: w) token st ltac:(discriminate) Hne).
Qed.

(** C1, at the input where the code leaves it. The empty string is falsy,
    so [analyze_without_cache] takes its token branch with no token:
    [analyze("")] ends in an exception in every configuration and returns
    no object, the sentinel included. *)
Theorem empty_string_raises (self : Self) (st : State) :
  uncached self (Some []) None st = (Raise AttributeError, st)
  /\ analyze_word self [] st =
     (Raise (if use_cache self
             then NotImplementedError
                    "Cache is not implemented yet, make use_cache False"
             else AttributeError), st).
Proof.
  split; [reflexivity |].
  unfold analyze. destruct (use_cache self); reflexivity.
Qed.

(** C2, at the input where the code leaves it. Whatever the tokenizer would
    make of the empty string, it is not asked: with the cache path off,
    [analyze("")] raises, the store and the record of calls untouched, and
    no [WordAnalysis] comes back. *)
Theorem empty_word_is_not_tokenized (self : Self) (st : State) :
  use_cache self = false ->
  len (tokenize (tokenizer self) []) <> 1 ->
  snd (analyze_word self [] st) = st
  /\ forall l st', analyze_word self [] st <> (Ok l, st').
Proof.
  intros Hcache _. unfold analyze. rewrite Hcache.
  split; [reflexivity | intros l st' H; discriminate].
Qed.

(** *** Construction and the cache switch *)

Section Construction.

Variable TurkishMorphotactics_new : RootLexicon -> Morphotactics.
Variable InformalTurkishMorphotactics_new : RootLexicon -> Morphotactics.
Variable RuleBasedAnalyzer_instance : Morphotactics -> RuleBasedAnalyzer.
Variable RuleBasedAnalyzer_ignore_diacritics_instance :
  Morphotactics -> RuleBasedAnalyzer.
Variable UnidentifiedTokenAnalyzer_new :
  RuleBasedAnalyzer -> UnidentifiedTokenAnalyzer.
Variable WordGenerator_new : Morphotactics -> WordGenerator.

Local Abbreviation built :=
  (build TurkishMorphotactics_new InformalTurkishMorphotactics_new
     RuleBasedAnalyzer_instance RuleBasedAnalyzer_ignore_diacritics_instance
     UnidentifiedTokenAnalyzer_new WordGenerator_new).

Lemma builder_defaults (tk : TurkishTokenizer) (lex : RootLexicon) :
  use_cache (built (Builder__init__ tk lex)) = false
  /\ use_unidentified_token_analyzer (built (Builder__init__ tk lex)) = true.
Proof. split; reflexivity. Qed.

(** C8. Built with [use_dynamic_cache] on, [analyze] raises
    [NotImplementedError] at once, before any collaborator is called and
    with the store as it was; built with it off, [analyze] is
    [analyze_without_cache] and never ends in [NotImplementedError]. *)
Theorem cache_path_fails_fast
    (builder : Builder RootLexicon) (word : str) (st : State) :
  if use_dynamic_cache builder
  then analyze_word (built builder) word st =
       (Raise (NotImplementedError
                 "Cache is not implemented yet, make use_cache False"), st)
  else analyze_word (built builder) word st
       = uncached (built builder) (Some word) None st
       /\ forall msg,
            fst (analyze_word (built builder) word st)
            <> Raise (NotImplementedError msg).
Proof.
  assert (E : use_cache (built builder) = use_dynamic_cache builder)
    by reflexivity.
  unfold analyze. rewrite E.
  destruct (use_dynamic_cache builder); [reflexivity |].
  split; [reflexivity |]. intros msg.
  destruct (uncached_outcome (built builder) (Some word) None st)
    as [(l & st' & H) | H]; rewrite H; discriminate.
Qed.

End Construction.

(** *** Normalization *)

Section Idempotence.

Local Abbreviation lowered x :=
  (str_lower (translate (lower_map INSTANCE) x)).
Local Abbreviation plain := (normalize_circumflex INSTANCE).
Local Abbreviation undotted x := (replace x DOT []).
Local Abbreviation unified := TextUtil_normalize_apostrophes.

(** What the specification says of the three helpers that are not among the
    sources: each is a normal form, and no later stage undoes an earlier
    one. *)
Hypothesis lowered_idem : forall x, lowered (lowered x) = lowered x.
Hypothesis plain_idem : forall x, plain (plain x) = plain x.
Hypothesis unified_idem : forall x, unified (unified x) = unified x.
Hypothesis plain_keeps_lowered :
  forall x, lowered x = x -> lowered (plain x) = plain x.
Hypothesis undotted_keeps_lowered :
  forall x, lowered x = x -> lowered (undotted x) = undotted x.
Hypothesis unified_keeps_lowered :
  forall x, lowered x = x -> lowered (unified x) = unified x.
Hypothesis undotted_keeps_plain :
  forall x, plain x = x -> plain (undotted x) = undotted x.
Hypothesis unified_keeps_plain :
  forall x, plain x = x -> plain (unified x) = unified x.
Hypothesis unified_undotted :
  forall x, undotted (unified x) = unified (undotted x).
Hypothesis unified_nil : unified [] = [].

Lemma undotted_idem (x : str) : undotted (undotted x) = undotted x.
Proof.
  unfold replace. induction x as [| c x IH]; [reflexivity |].
  simpl. destruct (N.eqb c DOT) eqn:E; simpl; [exact IH |].
  rewrite E. simpl. rewrite IH. reflexivity.
Qed.

(** C9. Normalizing what [normalize_for_analysis] returned returns it
    unchanged. *)
Theorem normalize_for_analysis_idempotent (s : str) :
  normalize_for_analysis INSTANCE str_lower TextUtil_normalize_apostrophes
    (normalize_for_analysis INSTANCE str_lower TextUtil_normalize_apostrophes s)
  = normalize_for_analysis INSTANCE str_lower TextUtil_normalize_apostrophes s.
Proof.
  unfold normalize_for_analysis. cbv zeta.
  set (x1 := lowered s).
  set (x2 := plain x1).
  set (x3 := if len (undotted x2) =? 0 then x2 else undotted x2).
  assert (L1 : lowered x1 = x1) by apply lowered_idem.
  assert (L2 : lowered x2 = x2) by (apply plain_keeps_lowered, L1).
  assert (P2 : plain x2 = x2) by apply plain_idem.
  assert (L3 : lowered x3 = x3).
  { unfold x3. destruct (len (undotted x2) =? 0);
      [exact L2 | apply undotted_keeps_lowered, L2]. }
  assert (P3 : plain x3 = x3).
  { unfold x3. destruct (len (undotted x2) =? 0);
      [exact P2 | apply undotted_keeps_plain, P2]. }
  assert (L4 : lowered (unified x3) = unified x3)
    by (apply unified_keeps_lowered, L3).
  assert (P4 : plain (unified x3) = unified x3)
    by (apply unified_keeps_plain, P3).
  assert (D4 : (if len (undotted (unified x3)) =? 0
                then unified x3 else undotted (unified x3)) = unified x3).
  { rewrite unified_undotted. unfold x3.
    destruct (len (undotted x2) =? 0) eqn:E.
    - apply Z.eqb_eq, len_zero_nil in E. rewrite E, unified_nil. reflexivity.
    - rewrite undotted_idem.
      destruct (len (unified (undotted x2)) =? 0); reflexivity. }
  rewrite L4, P4, D4. apply unified_idem.
Qed.

End Idempotence.

(** *** Every outcome of a call *)

Lemma after_calls_nil (st : State) : after_calls st [] = st.
Proof. unfold after_calls. rewrite app_nil_r. destruct st; reflexivity. Qed.

Lemma filter_is_sublist {A} (f : A -> bool) (l : list A) :
  sublist (List.filter f l) l.
Proof.
  induction l as [| x l IH]; simpl; [constructor |].
  destruct (f x); [apply sublist_skip | apply sublist_cons]; exact IH.
Qed.

Lemma replace_removes (c : N) (s : str) : c ∉ replace s c [].
Proof.
  unfold replace. induction s as [| x s IH]; simpl; [apply not_elem_of_nil |].
  destruct (N.eqb_spec x c) as [E | Hne]; [exact IH |].
  simpl. apply not_elem_of_cons. split; [congruence | exact IH].
Qed.

Lemma replace_app (c : N) (s t : str) :
  replace (s ++ t) c [] = replace s c [] ++ replace t c [].
Proof. unfold replace. apply flat_map_app. Qed.

Lemma replace_absent (c : N) (s : str) : c ∉ s -> replace s c [] = s.
Proof.
  unfold replace. induction s as [| x s IH]; intros Hn; [reflexivity |].
  apply not_elem_of_cons in Hn as [Hx Hs]. simpl.
  destruct (N.eqb_spec x c) as [E | _]; [congruence |].
  simpl. rewrite (IH Hs). reflexivity.
Qed.

(** A string either lacks [c] or splits at its first [c]. *)
Lemma find_split (c : N) (s : str) :
  ((c ∉ s) /\ find s c = -1)
  \/ (exists pre post,
        s = pre ++ c :: post /\ (c ∉ pre) /\ find s c = len pre).
Proof.
  induction s as [| x s IH].
  - left. split; [apply not_elem_of_nil | reflexivity].
  - destruct (N.eqb_spec x c) as [E | Hne].
    + right. exists [], s. subst x. split; [reflexivity |].
      split; [apply not_elem_of_nil |].
      unfold find. simpl. rewrite N.eqb_refl. reflexivity.
    + destruct IH as [[Hn Hf] | (pre & post & -> & Hpre & Hf)].
      * left. split; [apply not_elem_of_cons; split; [congruence | exact Hn] |].
        unfold find. apply find_from_absent.
        apply not_elem_of_cons. split; [congruence | exact Hn].
      * right. exists (x :: pre), post. split; [reflexivity |].
        assert (Hx : c ∉ x :: pre)
          by (apply not_elem_of_cons; split; [congruence | exact Hpre]).
        split; [exact Hx |].
        etrans; [exact (find_from_first c (x :: pre) post 0 Hx) | lia].
Qed.

Lemma slice_from_suffix {A} (pre rest : list A) :
  slice_from (pre ++ rest) (len pre) = rest.
Proof.
  unfold slice_from, clip. rewrite len_app.
  pose proof (len_nonneg pre). pose proof (len_nonneg rest).
  replace (len pre <? 0) with false by (symmetry; apply Z.ltb_ge; lia).
  rewrite Z.min_l by lia. unfold len. rewrite Nat2Z.id.
  apply drop_app_length.
Qed.

(** X10. The split the splitter makes loses nothing. With [i] the place of
    the first apostrophe, [word[0:i] + "'" + word[i+1:]] is the word again,
    the stem [word[0:i]] holds no apostrophe, and the text handed to the
    analyzer is that stem followed by the rest without its apostrophes. *)
Theorem split_at_apostrophe_loses_nothing (word : str) :
  0 <= find word APOSTROPHE ->
  let i := find word APOSTROPHE in
  slice word 0 i ++ APOSTROPHE :: slice_from word (i + 1) = word
  /\ (APOSTROPHE ∉ slice word 0 i)
  /\ replace word APOSTROPHE []
     = slice word 0 i ++ replace (slice_from word (i + 1)) APOSTROPHE [].
Proof.
  intros Hfind i. unfold i.
  destruct (find_split APOSTROPHE word)
    as [[_ Hf] | (pre & post & -> & Hpre & Hf)]; [lia |].
  rewrite Hf, slice_prefix.
  replace (pre ++ APOSTROPHE :: post) with ((pre ++ [APOSTROPHE]) ++ post)
    by (rewrite <- app_assoc; reflexivity).
  replace (len pre + 1) with (len (pre ++ [APOSTROPHE]))
    by (rewrite len_app; reflexivity).
  rewrite slice_from_suffix, <- app_assoc. simpl app.
  split; [reflexivity |]. split; [exact Hpre |].
  rewrite replace_app, (replace_absent _ _ Hpre).
  unfold replace. simpl. rewrite ?N.eqb_refl. reflexivity.
Qed.

Lemma splitter_shape (self : Self) (word : str) (st : State) :
  let without_quote := replace word APOSTROPHE [] in
  let parses := RuleBasedAnalyzer_analyze (analyzer self) without_quote in
  exists r calls,
    splitter self word st = (Ok r, after_calls st calls)
    /\ (calls = [] /\ r = [] \/ calls = [AnalyzerCall without_quote])
    /\ sublist r parses
    /\ (forall p, p ∈ r -> primary_pos (item p) = Noun).
Proof.
  intros without_quote parses.
  unfold analyze_words_with_apostrophe.
  destruct ((0 <? find word APOSTROPHE)
            && negb (find word APOSTROPHE =? len word - 1)).
  - cbv zeta. unfold bind, call_analyzer, emit, ret, bind.
    fold without_quote. fold parses.
    destruct (len parses =? 0).
    + exists [], [AnalyzerCall without_quote].
      split; [reflexivity |]. split; [right; reflexivity |].
      split; [apply sublist_nil_l | intros p Hp; inversion Hp].
    + eexists _, [AnalyzerCall without_quote].
      split; [reflexivity |]. split; [right; reflexivity |].
      split; [apply filter_is_sublist |].
      intros p Hp. apply list_elem_of_In, filter_In in Hp as [_ Hp].
      unfold apostrophe_filter in Hp. apply andb_true_iff in Hp as [Hp _].
      exact (bool_decide_eq_true_1 _ Hp).
  - exists [], []. rewrite after_calls_nil.
    split; [reflexivity |]. split; [left; auto |].
    split; [apply sublist_nil_l | intros p Hp; inversion Hp].
Qed.

(** X11. Whatever the word, the splitter invents nothing: what it returns is
    a sub-sequence, in order, of what the analyzer gives for the word
    without apostrophes, and every analysis in it has a noun root. *)
Theorem splitter_returns_noun_subsequence
    (self : Self) (word : str) (st : State) :
  exists r,
    fst (splitter self word st) = Ok r
    /\ sublist r (RuleBasedAnalyzer_analyze (analyzer self)
                    (replace word APOSTROPHE []))
    /\ forall p, p ∈ r -> primary_pos (item p) = Noun.
Proof.
  destruct (splitter_shape self word st) as (r & calls & Hrun & _ & Hs & Hn).
  exists r. rewrite Hrun. auto.
Qed.

(** X12. The splitter creates no object and calls the analyzer at most once,
    on a text that holds no apostrophe. *)
Theorem splitter_calls_analyzer_without_apostrophes
    (self : Self) (word : str) (st : State) :
  let st' := snd (splitter self word st) in
  heap st' = heap st
  /\ (trace st' = trace st
      \/ exists s, trace st' = trace st ++ [AnalyzerCall s]
                   /\ s = replace word APOSTROPHE []
                   /\ APOSTROPHE ∉ s).
Proof.
  destruct (splitter_shape self word st)
    as (r & calls & Hrun & [[-> _] | ->] & _).
  - rewrite Hrun, after_calls_nil. simpl. auto.
  - rewrite Hrun. simpl. split; [reflexivity |]. right.
    eexists. split; [reflexivity |]. split; [reflexivity |].
    apply replace_removes.
Qed.

Lemma first_pass_shape (self : Self) (s : str) (st : State) :
  exists r calls,
    first_pass INSTANCE p3sg self s st
    = (Ok (if contains_apostrophe INSTANCE s
           then normalize_apostrophe INSTANCE s else s, r),
       after_calls st calls)
    /\ (calls = [] \/ exists x, calls = [AnalyzerCall x]).
Proof.
  unfold first_pass. destruct (contains_apostrophe INSTANCE s).
  - destruct (splitter_shape self (normalize_apostrophe INSTANCE s) st)
      as (r & calls & Hrun & Hcalls & _).
    exists r, calls. unfold bind. rewrite Hrun.
    split; [reflexivity |].
    destruct Hcalls as [[-> _] | ->]; [left | right]; eauto.
  - eexists _, [AnalyzerCall s]. split; [reflexivity | right; eauto].
Qed.

Lemma token_branch_shape (self : Self) (tok : Token) (st : State) :
  (normalized (content tok) = []
   /\ token_branch self (Some tok) st = (Ok EMPTY_INPUT_RESULT, st))
  \/ (normalized (content tok) <> []
      /\ exists r2 a u,
           token_branch self (Some tok) st =
           (Ok (length (heap st)),
            {| heap := heap st ++
                 [ {| inp := content tok;
                      analysis_results := r2;
                      normalized_input :=
                        if contains_apostrophe INSTANCE
                             (normalized (content tok))
                        then normalize_apostrophe INSTANCE
                               (normalized (content tok))
                        else normalized (content tok);
                      index := 0 |} ];
               trace := trace st ++ a ++ u |})
           /\ (a = [] \/ exists x, a = [AnalyzerCall x])
           /\ (u = [] \/ u = [UnidentifiedCall tok])
           /\ (forall x, r2 = [x] ->
                         DictionaryItem_is_unknown (item x) = false)).
Proof.
  destruct (decide (normalized (content tok) = [])) as [E | Hne].
  - left. split; [exact E |].
    exact (empty_normalization_gives_sentinel self tok st E).
  - right. split; [exact Hne |].
    destruct (first_pass_shape self (normalized (content tok)) st)
      as (r0 & a & Hfirst & Ha).
    pose proof (token_branch_run self tok st _ _ r0 Hne Hfirst) as Hrun.
    cbv zeta in Hrun.
    set (fb := (len r0 =? 0) && use_unidentified_token_analyzer self) in *.
    set (r1 := if fb
               then UnidentifiedTokenAnalyzer_analyze
                      (unidentified_token_analyzer self) tok
               else r0) in *.
    exists (match r1 with
            | [x] => if DictionaryItem_is_unknown (item x) then [] else r1
            | _ => r1
            end), a, (if fb then [UnidentifiedCall tok] else []).
    split; [| split; [exact Ha | split]].
    + rewrite Hrun. destruct fb; simpl.
      * rewrite <- app_assoc. reflexivity.
      * rewrite app_nil_r. reflexivity.
    + destruct fb; auto.
    + intros x Hx. destruct r1 as [| y [| z r1]]; [discriminate | |].
      * destruct (DictionaryItem_is_unknown (item y)) eqn:Hy;
          [discriminate | congruence].
      * discriminate.
Qed.

Lemma uncached_shape
    (self : Self) (word : option str) (token : option Token) (st : State) :
  uncached self word token st = (Raise AttributeError, st)
  \/ exists calls,
       call_discipline calls
       /\ (uncached self word token st
           = (Ok EMPTY_INPUT_RESULT, after_calls st calls)
           \/ exists o,
                uncached self word token st
                = (Ok (length (heap st)),
                   {| heap := heap st ++ [o]; trace := trace st ++ calls |})
                /\ index o = 0 /\ no_lone_unknown o).
Proof.
  assert (Hbranch : forall (t : list Call) (st0 : State),
    (t = [] \/ exists w, t = [TokenizerCall w]) ->
    st0 = after_calls st t ->
    forall tok,
    exists calls,
      call_discipline calls
      /\ (token_branch self (Some tok) st0
          = (Ok EMPTY_INPUT_RESULT, after_calls st calls)
          \/ exists o,
               token_branch self (Some tok) st0
               = (Ok (length (heap st)),
                  {| heap := heap st ++ [o]; trace := trace st ++ calls |})
               /\ index o = 0 /\ no_lone_unknown o)).
  { intros t st0 Ht -> tok.
    destruct (token_branch_shape self tok (after_calls st t))
      as [[_ Hrun] | (_ & r2 & a & u & Hrun & Ha & Hu & Hlone)].
    - exists t. split.
      + exists t, [], []. rewrite app_nil_r. auto.
      + left. exact Hrun.
    - exists (t ++ a ++ u). split.
      + exists t, a, u. split; [reflexivity |]. split; [exact Ht |].
        split; [exact Ha |]. destruct Hu as [-> | ->]; eauto.
      + right. eexists. split.
        * rewrite Hrun. simpl. rewrite <- !app_assoc. reflexivity.
        * split; [reflexivity | exact Hlone]. }
  assert (Htoken :
    uncached self None token st = (Raise AttributeError, st)
    \/ exists calls,
         call_discipline calls
         /\ (uncached self None token st
             = (Ok EMPTY_INPUT_RESULT, after_calls st calls)
             \/ exists o,
                  uncached self None token st
                  = (Ok (length (heap st)),
                     {| heap := heap st ++ [o];
                        trace := trace st ++ calls |})
                  /\ index o = 0 /\ no_lone_unknown o)).
  { destruct token as [tok |]; [right | left; reflexivity].
    exact (Hbranch [] st (or_introl eq_refl)
             (eq_sym (after_calls_nil st)) tok). }
  destruct word as [[| c w] |]; [exact Htoken | | exact Htoken].
  right.
  destruct (decide (len (tokenize (tokenizer self) (c :: w)) = 1)) as [E | Hne].
  - destruct (tokenize (tokenizer self) (c :: w)) as [| tok [| t2 ts]] eqn:Htok.
    + discriminate.
    + rewrite (single_token_result self (c :: w) token tok st
                 ltac:(discriminate) Htok).
      exact (Hbranch [TokenizerCall (c :: w)] _
               (or_intror (ex_intro _ _ eq_refl)) eq_refl tok).
    + rewrite !len_cons in E. pose proof (len_nonneg ts). lia.
  - exists [TokenizerCall (c :: w)]. split.
    + exists [TokenizerCall (c :: w)], [], []. split; [reflexivity |].
      split; [right; eauto | split; left; reflexivity].
    + right. eexists. split.
      * exact (multi_token_result self (c :: w) token st
                 ltac:(discriminate) Hne).
      * split; [reflexivity | intros a Ha; discriminate].
Qed.

(** *** What a caller can rely on *)

(** X1. On a non-empty word, with the cache path off, [analyze] returns an
    object: it does not raise. *)
Theorem analyze_returns_on_nonempty_word
    (self : Self) (w : str) (st : State) :
  w <> [] ->
  use_cache self = false ->
  exists l st', analyze_word self w st = (Ok l, st').
Proof.
  intros Hw Hcache. unfold analyze. rewrite Hcache.
  destruct (uncached_shape self (Some w) None st)
    as [Hraise | (calls & _ & [H | (o & H & _)])]; [| eauto | eauto].
  destruct w as [| c w]; [congruence |]. exfalso.
  destruct (decide (len (tokenize (tokenizer self) (c :: w)) = 1)) as [E | Hne].
  - destruct (tokenize (tokenizer self) (c :: w)) as [| tok [| t2 ts]] eqn:Htok.
    + discriminate.
    + rewrite (single_token_result self (c :: w) None tok st
                 ltac:(discriminate) Htok) in Hraise.
      destruct (token_branch_outcome self (Some tok)
                  (after_call st (TokenizerCall (c :: w))))
        as [[H _] | (tok' & l & st' & _ & H)]; [discriminate | congruence].
    + rewrite !len_cons in E. pose proof (len_nonneg ts). lia.
  - rewrite (multi_token_result self (c :: w) None st
               ltac:(discriminate) Hne) in Hraise.
    discriminate.
Qed.

(** X2. One call of [analyze_without_cache] calls each collaborator at most
    once, the tokenizer before the analyzer and the analyzer before the
    fallback, and only adds to the record of calls. *)
Theorem each_collaborator_at_most_once
    (self : Self) (word : option str) (token : option Token) (st : State) :
  exists calls,
    trace (snd (uncached self word token st)) = trace st ++ calls
    /\ call_discipline calls.
Proof.
  destruct (uncached_shape self word token st)
    as [H | (calls & Hd & [H | (o & H & _)])].
  - exists []. rewrite H. simpl. rewrite app_nil_r. split; [reflexivity |].
    exists [], [], []. auto.
  - exists calls. rewrite H. auto.
  - exists calls. rewrite H. auto.
Qed.

(** X3. A call creates at most one object, at the next free address and with
    its cursor at 0, and writes to no object that was there before; when it
    raises, the store is as it was. *)
Theorem analyze_allocates_at_most_one_object
    (self : Self) (word : option str) (token : option Token) (st : State) :
  let out := uncached self word token st in
  (heap (snd out) = heap st
   /\ (fst out = Ok EMPTY_INPUT_RESULT \/ fst out = Raise AttributeError))
  \/ (exists o,
        heap (snd out) = heap st ++ [o]
        /\ fst out = Ok (length (heap st))
        /\ index o = 0).
Proof.
  cbv zeta.
  destruct (uncached_shape self word token st)
    as [H | (calls & _ & [H | (o & H & Hi & _)])]; rewrite H; simpl.
  - left. auto.
  - left. auto.
  - right. exists o. auto.
Qed.

(** X4. No result is one lone analysis of unknown root: the object a call
    returns, the sentinel included, never has exactly one analysis whose
    root item is the unknown marker. *)
Theorem no_result_is_a_lone_unknown
    (self : Self) (word : option str) (token : option Token)
    (st : State) (l : loc) :
  loaded st ->
  fst (uncached self word token st) = Ok l ->
  exists o,
    heap (snd (uncached self word token st)) !! l = Some o
    /\ no_lone_unknown o.
Proof.
  intros [i Hi] Hl.
  destruct (uncached_shape self word token st)
    as [H | (calls & _ & [H | (o & H & _ & Hlone)])];
    rewrite H in Hl |- *; simpl in Hl |- *.
  - discriminate.
  - injection Hl as <-. eexists. split; [exact Hi |].
    intros a Ha. discriminate.
  - injection Hl as <-. exists o.
    split; [apply list_lookup_middle; reflexivity | exact Hlone].
Qed.

(** X5. When the word is one token whose text normalizes to something, the
    result is a new object that holds the token's text (not the word as it
    was passed) as input, and as normalized input the normalized text, with
    its apostrophes unified when it has any. *)
Theorem single_token_result_fields
    (self : Self) (w : str) (token : option Token) (tok : Token) (st : State) :
  w <> [] ->
  tokenize (tokenizer self) w = [tok] ->
  normalized (content tok) <> [] ->
  exists st' o,
    uncached self (Some w) token st = (Ok (length (heap st)), st')
    /\ heap st' !! length (heap st) = Some o
    /\ inp o = content tok
    /\ normalized_input o
       = (if contains_apostrophe INSTANCE (normalized (content tok))
          then normalize_apostrophe INSTANCE (normalized (content tok))
          else normalized (content tok))
    /\ index o = 0.
Proof.
  intros Hw Htok Hne.
  rewrite (single_token_result self w token tok st Hw Htok).
  destruct (token_branch_shape self tok (after_call st (TokenizerCall w)))
    as [[E _] | (_ & r2 & a & u & Hrun & _)]; [congruence |].
  rewrite Hrun. simpl. eexists _, _. split; [reflexivity |].
  simpl. split; [apply list_lookup_middle; reflexivity |].
  repeat split.
Qed.

(** X6. The token branch returns the sentinel exactly when the token's text
    normalizes to the empty string; otherwise what it returns is a new
    object. *)
Theorem sentinel_iff_empty_normalization
    (self : Self) (tok : Token) (st : State) :
  loaded st ->
  exists l st',
    token_branch self (Some tok) st = (Ok l, st')
    /\ (l = EMPTY_INPUT_RESULT <-> normalized (content tok) = [])
    /\ (l <> EMPTY_INPUT_RESULT -> l = length (heap st)).
Proof.
  intros [i Hi].
  assert (Hpos : length (heap st) <> EMPTY_INPUT_RESULT).
  { pose proof (lookup_lt_Some _ _ _ Hi) as Hlt.
    unfold EMPTY_INPUT_RESULT in *. lia. }
  destruct (token_branch_shape self tok st)
    as [[E Hrun] | (Hne & r2 & a & u & Hrun & _)];
    rewrite Hrun; eexists _, _; (split; [reflexivity |]).
  - split; [split; auto | congruence].
  - split; [split; [intros E; congruence | intros E; congruence] | auto].
Qed.

(** X7. Only a word that is one token with a non-empty normalization can
    come out correct: if [is_correct] holds of what [analyze] returned, the
    tokenizer gave exactly one token and its text did not normalize to the
    empty string. *)
Theorem correct_only_if_single_token
    (self : Self) (w : str) (st st' : State) (l : loc) :
  loaded st ->
  use_cache self = false ->
  analyze_word self w st = (Ok l, st') ->
  is_correct l st' = (Ok true, st') ->
  exists tok,
    tokenize (tokenizer self) w = [tok]
    /\ normalized (content tok) <> [].
Proof.
  intros [i Hi] Hcache Hrun Hcorrect.
  unfold analyze in Hrun. rewrite Hcache in Hrun.
  assert (Hfalse : forall st0 o,
    heap st0 !! l = Some o -> analysis_results o = [] ->
    is_correct l st0 = (Ok true, st0) -> False).
  { intros st0 o Ho Hr H. unfold is_correct, bind in H.
    rewrite (deref_Some _ _ _ Ho), Hr in H. discriminate. }
  destruct w as [| c w]; [discriminate |].
  destruct (decide (len (tokenize (tokenizer self) (c :: w)) = 1)) as [E | Hne].
  - destruct (tokenize (tokenizer self) (c :: w)) as [| tok [| t2 ts]] eqn:Htok.
    + discriminate.
    + exists tok. split; [reflexivity |]. intros Hempty.
      rewrite (single_token_result self (c :: w) None tok st
                 ltac:(discriminate) Htok) in Hrun.
      rewrite (empty_normalization_gives_sentinel self tok _ Hempty) in Hrun.
      injection Hrun as <- <-.
      exact (Hfalse (after_call st (TokenizerCall (c :: w))) _ Hi eq_refl
               Hcorrect).
    + rewrite !len_cons in E. pose proof (len_nonneg ts). lia.
  - rewrite (multi_token_result self (c :: w) None st
               ltac:(discriminate) Hne) in Hrun.
    injection Hrun as <- <-. exfalso.
    eapply Hfalse; [| | exact Hcorrect];
      [simpl; apply list_lookup_middle; reflexivity | reflexivity].
Qed.

(** X8. The shared sentinel is never changed: after any call of
    [analyze_without_cache], and after any loop over any object, the
    sentinel still has the empty input, no analyses and the empty
    normalized input. *)
Theorem sentinel_is_never_changed
    (self : Self) (word : option str) (token : option Token) (st : State) :
  loaded st ->
  loaded (snd (uncached self word token st))
  /\ forall fuel l, loaded (snd (for_each fuel l st)).
Proof.
  intros H. split; [| intros fuel l; exact (for_each_keeps_loaded fuel l st H)].
  destruct H as [i Hi].
  destruct (uncached_shape self word token st)
    as [H | (calls & _ & [H | (o & H & _)])]; rewrite H; simpl.
  - exists i. exact Hi.
  - exists i. exact Hi.
  - exists i. simpl. apply lookup_app_l_Some. exact Hi.
Qed.

(** *** Normalization keeps something of every non-empty text *)

Section NonEmpty.

Local Abbreviation lowered x :=
  (str_lower (translate (lower_map INSTANCE) x)).
Local Abbreviation plain := (normalize_circumflex INSTANCE).
Local Abbreviation unified := TextUtil_normalize_apostrophes.

(** None of the helpers makes a text empty or makes the empty text longer. *)
Hypothesis lowered_empty : forall x, lowered x = [] <-> x = [].
Hypothesis plain_empty : forall x, plain x = [] <-> x = [].
Hypothesis unified_empty : forall x, unified x = [] <-> x = [].

(** X9. Because the dots are put back when removing them leaves nothing,
    [normalize_for_analysis] gives the empty string for the empty string
    only: a text of dots alone is not normalized away. *)
Theorem normalization_empty_iff_input_empty (s : str) :
  normalize_for_analysis INSTANCE str_lower TextUtil_normalize_apostrophes s
  = [] <-> s = [].
Proof.
  unfold normalize_for_analysis. cbv zeta.
  rewrite unified_empty.
  destruct (len (replace (plain (lowered s)) DOT []) =? 0) eqn:E.
  - rewrite plain_empty, lowered_empty. reflexivity.
  - split.
    + intros H. rewrite H in E. discriminate.
    + intros ->. apply Z.eqb_neq in E. exfalso. apply E.
      assert (H0 : plain (lowered []) = []).
      { apply plain_empty, lowered_empty. reflexivity. }
      rewrite H0. reflexivity.
Qed.

End NonEmpty.

(** *** Chains of builder calls *)

Section Chains.

Variable TurkishMorphotactics_new : RootLexicon -> Morphotactics.
Variable InformalTurkishMorphotactics_new : RootLexicon -> Morphotactics.
Variable RuleBasedAnalyzer_instance : Morphotactics -> RuleBasedAnalyzer.
Variable RuleBasedAnalyzer_ignore_diacritics_instance :
  Morphotactics -> RuleBasedAnalyzer.
Variable UnidentifiedTokenAnalyzer_new :
  RuleBasedAnalyzer -> UnidentifiedTokenAnalyzer.
Variable WordGenerator_new : Morphotactics -> WordGenerator.

Local Abbreviation built :=
  (build TurkishMorphotactics_new InformalTurkishMorphotactics_new
     RuleBasedAnalyzer_instance RuleBasedAnalyzer_ignore_diacritics_instance
     UnidentifiedTokenAnalyzer_new WordGenerator_new).

(** X13. No method of the builder touches the cache switch, the fallback
    switch or the tokenizer. Whatever chain of calls follows
    [TurkishMorphology.builder(lexicon)], the instance built has the cache
    path off, the fallback on and the default tokenizer, and its [analyze]
    is [analyze_without_cache] and never raises [NotImplementedError]. *)
Theorem builder_chain_keeps_the_switches
    (tk : TurkishTokenizer) (lex : RootLexicon)
    (calls : list (BuilderCall RootLexicon)) (word : str) (st : State) :
  let self := built (builder_chain (builder tk lex) calls) in
  use_cache self = false
  /\ use_unidentified_token_analyzer self = true
  /\ tokenizer self = tk
  /\ analyze_word self word st = uncached self (Some word) None st
  /\ forall msg, fst (analyze_word self word st)
                 <> Raise (NotImplementedError msg).
Proof.
  intros self.
  destruct (builder_chain_fields calls (builder tk lex))
    as (T & _ & _ & _ & C & U).
  assert (Hc : use_cache self = false) by exact C.
  assert (Hrun : analyze_word self word st = uncached self (Some word) None st).
  { unfold analyze. rewrite Hc. reflexivity. }
  split; [exact Hc |]. split; [exact U |]. split; [exact T |].
  split; [exact Hrun |]. intros msg. rewrite Hrun.
  destruct (uncached_outcome self (Some word) None st)
    as [(l & st' & H) | H]; rewrite H; discriminate.
Qed.

(** X14. What a chain of builder calls builds depends on the chain only
    through the last lexicon set and through whether the informal and the
    diacritics-ignoring options were asked for at all; the analyzer, the
    fallback (through the analyzer) and the word generator all sit on the
    one morphotactics made from that lexicon. *)
Theorem builder_chain_result
    (tk : TurkishTokenizer) (lex : RootLexicon)
    (calls : list (BuilderCall RootLexicon)) :
  let self := built (builder_chain (builder tk lex) calls) in
  lexicon self = last_lexicon calls lex
  /\ morphotactics self
     = (if existsb calls_informal calls
        then InformalTurkishMorphotactics_new (last_lexicon calls lex)
        else TurkishMorphotactics_new (last_lexicon calls lex))
  /\ analyzer self
     = (if existsb calls_ignore_diacritics calls
        then RuleBasedAnalyzer_ignore_diacritics_instance (morphotactics self)
        else RuleBasedAnalyzer_instance (morphotactics self))
  /\ unidentified_token_analyzer self
     = UnidentifiedTokenAnalyzer_new (analyzer self)
  /\ word_generator self = WordGenerator_new (morphotactics self).
Proof.
  intros self.
  destruct (builder_chain_fields calls (builder tk lex))
    as (_ & L & I & D & _).
  unfold self, build, TurkishMorphology__init__. simpl.
  rewrite L, I, D. simpl. repeat split.
Qed.

End Chains.

End MorphologyFacts.

(** ** Strings mapped code point by code point *)

Lemma map_fixed_cons (f : N -> N) (c : N) (x : str) :
  map f (c :: x) = c :: x -> f c = c /\ map f x = x.
Proof. simpl. intros H. injection H as H1 H2. auto. Qed.

Lemma map_idem (f : N -> N) (x : str) :
  (forall c, f (f c) = f c) -> map f (map f x) = map f x.
Proof.
  intros Hf. rewrite map_map. apply map_ext. exact Hf.
Qed.

Lemma map_keeps_fixed (g f : N -> N) (x : str) :
  (forall c, g c = c -> g (f c) = f c) ->
  map g x = x -> map g (map f x) = map f x.
Proof.
  intros Hgf. induction x as [| c x IH]; [reflexivity |].
  intros H. apply map_fixed_cons in H as [Hc Hx].
  simpl. rewrite (Hgf c Hc), (IH Hx). reflexivity.
Qed.

Lemma replace_keeps_fixed (g : N -> N) (d : N) (x : str) :
  map g x = x -> map g (replace x d []) = replace x d [].
Proof.
  unfold replace. induction x as [| c x IH]; [reflexivity |].
  intros H. apply map_fixed_cons in H as [Hc Hx]. simpl.
  destruct (N.eqb c d); simpl; [exact (IH Hx) |].
  rewrite Hc, (IH Hx). reflexivity.
Qed.

Lemma replace_map (f : N -> N) (d : N) (x : str) :
  (forall c, N.eqb (f c) d = N.eqb c d) ->
  replace (map f x) d [] = map f (replace x d []).
Proof.
  intros Hf. unfold replace. induction x as [| c x IH]; [reflexivity |].
  simpl. rewrite Hf. destruct (N.eqb c d); simpl; rewrite IH; reflexivity.
Qed.

(** ** The example world meets what normalization asks of its helpers *)

Module ExampleFacts.
Import Example.

Ltac split_chars :=
  repeat (match goal with
    | H : context [N.eqb ?a ?b] |- _ => destruct (N.eqb_spec a b); try (exfalso; lia)
    | H : context [N.leb ?a ?b] |- _ => destruct (N.leb_spec a b); try (exfalso; lia)
    | |- context [N.eqb ?a ?b] => destruct (N.eqb_spec a b); try (exfalso; lia)
    | |- context [N.leb ?a ?b] => destruct (N.leb_spec a b); try (exfalso; lia)
    end; cbn [andb orb] in *);
  try lia.

Ltac open_chars :=
  unfold lowered_char, lower_char, tr_char, circumflex_char, apostrophe_char,
    is_apostrophe_variant, APOSTROPHE, DOT in *.

Lemma translate_table (s : str) : translate lower_table s = map tr_char s.
Proof.
  induction s as [| c s IH]; [reflexivity |].
  unfold translate in *. simpl. rewrite IH. f_equal.
  unfold lower_table, tr_char.
  rewrite lookup_insert. case_decide as E1; [subst; reflexivity |].
  rewrite lookup_singleton. case_decide as E2; [subst; reflexivity |].
  destruct (N.eqb_spec c 73); [congruence |].
  destruct (N.eqb_spec c 304); [congruence | reflexivity].
Qed.

Lemma lowered_is_map (s : str) :
  lower (translate (lower_map alphabet) s) = map lowered_char s.
Proof.
  simpl lower_map. rewrite translate_table. unfold lower.
  rewrite map_map. reflexivity.
Qed.

Lemma lowered_char_idem c : lowered_char (lowered_char c) = lowered_char c.
Proof. open_chars. split_chars. Qed.

Lemma circumflex_char_idem c : circumflex_char (circumflex_char c) = circumflex_char c.
Proof. open_chars. split_chars. Qed.

Lemma apostrophe_char_idem c : apostrophe_char (apostrophe_char c) = apostrophe_char c.
Proof. open_chars. split_chars. Qed.

Lemma circumflex_keeps_lowered c :
  lowered_char c = c -> lowered_char (circumflex_char c) = circumflex_char c.
Proof. intros H. open_chars. split_chars. Qed.

Lemma apostrophe_keeps_lowered c :
  lowered_char c = c -> lowered_char (apostrophe_char c) = apostrophe_char c.
Proof. intros H. open_chars. split_chars. Qed.

Lemma apostrophe_keeps_plain c :
  circumflex_char c = c -> circumflex_char (apostrophe_char c) = apostrophe_char c.
Proof. intros H. open_chars. split_chars. Qed.

Lemma apostrophe_char_dot c : N.eqb (apostrophe_char c) DOT = N.eqb c DOT.
Proof. open_chars. split_chars. Qed.

End ExampleFacts.

Module ExampleRuns.
Import Example ExampleFacts.

Local Abbreviation lowered x := (lower (translate (lower_map alphabet) x)).
Local Abbreviation plain := (normalize_circumflex alphabet).
Local Abbreviation undotted x := (replace x DOT []).

Lemma example_lowered_idem (x : str) : lowered (lowered x) = lowered x.
Proof. rewrite !lowered_is_map. apply map_idem, lowered_char_idem. Qed.

Lemma example_plain_idem (x : str) : plain (plain x) = plain x.
Proof. apply map_idem, circumflex_char_idem. Qed.

Lemma example_unified_idem (x : str) :
  normalize_apostrophes (normalize_apostrophes x) = normalize_apostrophes x.
Proof. apply map_idem, apostrophe_char_idem. Qed.

Lemma example_plain_keeps_lowered (x : str) :
  lowered x = x -> lowered (plain x) = plain x.
Proof.
  rewrite !lowered_is_map. apply map_keeps_fixed, circumflex_keeps_lowered.
Qed.

Lemma example_undotted_keeps_lowered (x : str) :
  lowered x = x -> lowered (undotted x) = undotted x.
Proof. rewrite !lowered_is_map. apply replace_keeps_fixed. Qed.

Lemma example_unified_keeps_lowered (x : str) :
  lowered x = x -> lowered (normalize_apostrophes x) = normalize_apostrophes x.
Proof.
  rewrite !lowered_is_map. apply map_keeps_fixed, apostrophe_keeps_lowered.
Qed.

Lemma example_undotted_keeps_plain (x : str) :
  plain x = x -> plain (undotted x) = undotted x.
Proof. apply replace_keeps_fixed. Qed.

Lemma example_unified_keeps_plain (x : str) :
  plain x = x -> plain (normalize_apostrophes x) = normalize_apostrophes x.
Proof. apply map_keeps_fixed, apostrophe_keeps_plain. Qed.

Lemma example_unified_undotted (x : str) :
  undotted (normalize_apostrophes x) = normalize_apostrophes (undotted x).
Proof. apply replace_map, apostrophe_char_dot. Qed.

End ExampleRuns.

(** ** The statements above on concrete input *)

Lemma normalize_for_analysis_idempotent_witness :
  let n := normalize_for_analysis Example.alphabet Example.lower
             Example.normalize_apostrophes in
  let s := [304%N] ++ Example.lit "ST.A" ++ [194%N; 8217%N] ++ Example.lit "I." in
  n (n s) = n s.
Proof.
  exact (normalize_for_analysis_idempotent
           Example.alphabet Example.lower Example.normalize_apostrophes
           ExampleRuns.example_lowered_idem
           ExampleRuns.example_plain_idem
           ExampleRuns.example_unified_idem
           ExampleRuns.example_plain_keeps_lowered
           ExampleRuns.example_undotted_keeps_lowered
           ExampleRuns.example_unified_keeps_lowered
           ExampleRuns.example_undotted_keeps_plain
           ExampleRuns.example_unified_keeps_plain
           ExampleRuns.example_unified_undotted
           eq_refl _).
Defined.

Lemma splitter_malformed_empty_witness :
  (exists pre, Example.lit "ahmet'" = pre ++ [APOSTROPHE] /\ APOSTROPHE ∉ pre)
  /\ analyze_words_with_apostrophe Example.alphabet Example.p3sg
       Example.morphology (Example.lit "ahmet'") initial_state
     = (Ok [], initial_state).
Proof.
  assert (H : exists pre,
             Example.lit "ahmet'" = pre ++ [APOSTROPHE] /\ APOSTROPHE ∉ pre).
  { exists (Example.lit "ahmet"). split; [reflexivity | compute_done]. }
  split; [exact H |].
  apply splitter_malformed_empty. right. right. exact H.
Defined.

Lemma splitter_filters_on_root_pos_witness :
  let pre := Example.lit "ahmet" in
  let post := Example.lit "in" in
  let word := pre ++ APOSTROPHE :: post in
  let parses :=
    RuleBasedAnalyzer_analyze (analyzer Example.morphology)
      (replace word APOSTROPHE []) in
  ((APOSTROPHE ∉ pre) /\ pre <> [] /\ post <> [])
  /\ exists r st',
       analyze_words_with_apostrophe Example.alphabet Example.p3sg
         Example.morphology word initial_state = (Ok r, st')
       /\ forall p,
            p ∈ r <->
            p ∈ parses /\ primary_pos (item p) = Noun
            /\ (Example.p3sg ∈ morphemes p
                \/ get_stem p = normalize Example.alphabet pre).
Proof.
  intros pre post word parses.
  assert (H1 : APOSTROPHE ∉ pre) by compute_done.
  assert (H2 : pre <> []) by discriminate.
  assert (H3 : post <> []) by discriminate.
  split; [auto |].
  exact (splitter_filters_on_root_pos Example.alphabet Example.p3sg
           unit unit unit Example.morphology pre post initial_state H1 H2 H3).
Defined.

(** C3, as the specification words it, fails: "ahmet'leşti" has the noun
    root "ahmet" and is, as a whole, a verb; the splitter returns its
    analysis all the same. *)
Lemma splitter_keeps_a_derived_verb :
  ~ splitter_filters_on_derived_pos Example.alphabet Example.p3sg
      Example.morphology (Example.lit "ahmet")
      (Example.lit "le" ++ [351%N] ++ Example.lit "ti") initial_state.
Proof.
  intros H.
  destruct H as (r & st' & Hrun & Hiff);
    [compute_done | discriminate | discriminate |].
  vm_compute in Hrun. injection Hrun as Hr _.
  destruct (Hiff Example.ahmet_become_past) as [H _].
  destruct H as (_ & Hpos & _); [| discriminate Hpos].
  rewrite <- Hr. apply list_elem_of_here.
Qed.

Lemma empty_word_is_not_tokenized_witness :
  let run := analyze Example.alphabet Example.lower
               Example.normalize_apostrophes Example.p3sg
               Example.morphology [] initial_state in
  (use_cache Example.morphology = false
   /\ len (tokenize (tokenizer Example.morphology) []) <> 1)
  /\ snd run = initial_state
  /\ forall l st', run <> (Ok l, st').
Proof.
  intros run.
  assert (H1 : use_cache Example.morphology = false) by reflexivity.
  assert (H2 : len (tokenize (tokenizer Example.morphology) []) <> 1)
    by discriminate.
  split; [auto |].
  exact (empty_word_is_not_tokenized Example.alphabet Example.lower
           Example.normalize_apostrophes Example.p3sg unit unit unit
           Example.morphology initial_state H1 H2).
Defined.

Lemma lone_unknown_is_dropped_witness :
  let tok := Example.token_of (Example.lit "xyz") in
  let st1 := after_call initial_state (AnalyzerCall (Example.lit "xyz")) in
  let st2 := after_call st1 (UnidentifiedCall tok) in
  let a := {| item := Example.UNKNOWN; stem := Example.lit "xyz";
              morphemes := []; derived_pos := Unknown |} in
  (first_pass Example.alphabet Example.p3sg Example.morphology
     (normalize_for_analysis Example.alphabet Example.lower
        Example.normalize_apostrophes (content tok)) initial_state
   = (Ok (Example.lit "xyz", []), st1)
   /\ fallback Example.morphology tok [] st1 = (Ok [a], st2)
   /\ DictionaryItem_is_unknown (item a) = true)
  /\ exists l st',
       analyze_token Example.alphabet Example.lower
         Example.normalize_apostrophes Example.p3sg Example.morphology
         (Some tok) initial_state = (Ok l, st')
       /\ heap st' !! l = Some {| inp := content tok;
                                  analysis_results := [];
                                  normalized_input := Example.lit "xyz";
                                  index := 0 |}.
Proof.
  intros tok st1 st2 a.
  assert (H0 : normalize_for_analysis Example.alphabet Example.lower
                 Example.normalize_apostrophes (content tok) <> [])
    by discriminate.
  assert (H1 : first_pass Example.alphabet Example.p3sg Example.morphology
                 (normalize_for_analysis Example.alphabet Example.lower
                    Example.normalize_apostrophes (content tok)) initial_state
               = (Ok (Example.lit "xyz", []), st1)) by reflexivity.
  assert (H2 : fallback Example.morphology tok [] st1 = (Ok [a], st2))
    by reflexivity.
  assert (H3 : DictionaryItem_is_unknown (item a) = true) by reflexivity.
  split; [auto |].
  exact (lone_unknown_is_dropped Example.alphabet Example.lower
           Example.normalize_apostrophes Example.p3sg unit unit unit
           Example.morphology tok initial_state st1 st2
           (Example.lit "xyz") [] a H0 H1 H2 H3).
Defined.

Lemma fallback_called_iff_witness :
  let tok := Example.token_of (Example.lit "xyz") in
  let st1 := after_call initial_state (AnalyzerCall (Example.lit "xyz")) in
  first_pass Example.alphabet Example.p3sg Example.morphology
    (normalize_for_analysis Example.alphabet Example.lower
       Example.normalize_apostrophes (content tok)) initial_state
  = (Ok (Example.lit "xyz", []), st1)
  /\ exists l st' before after,
       analyze_token Example.alphabet Example.lower
         Example.normalize_apostrophes Example.p3sg Example.morphology
         (Some tok) initial_state = (Ok l, st')
       /\ trace st1 = trace initial_state ++ before
       /\ trace st' = trace st1 ++ after
       /\ (forall t, UnidentifiedCall t ∉ before)
       /\ (after = [UnidentifiedCall tok]
              /\ @nil SingleAnalysis = []
              /\ use_unidentified_token_analyzer Example.morphology = true
           \/ after = []
              /\ ~ (@nil SingleAnalysis = []
                    /\ use_unidentified_token_analyzer Example.morphology
                       = true))
       /\ (use_unidentified_token_analyzer Example.morphology = false ->
           @nil SingleAnalysis = [] ->
           exists o, heap st' !! l = Some o /\ analysis_results o = []).
Proof.
  intros tok st1.
  assert (H0 : normalize_for_analysis Example.alphabet Example.lower
                 Example.normalize_apostrophes (content tok) <> [])
    by discriminate.
  assert (H1 : first_pass Example.alphabet Example.p3sg Example.morphology
                 (normalize_for_analysis Example.alphabet Example.lower
                    Example.normalize_apostrophes (content tok)) initial_state
               = (Ok (Example.lit "xyz", []), st1)) by reflexivity.
  split; [exact H1 |].
  exact (fallback_called_iff Example.alphabet Example.lower
           Example.normalize_apostrophes Example.p3sg unit unit unit
           Example.morphology tok initial_state st1
           (Example.lit "xyz") [] H0 H1).
Defined.

(** ** The further statements on concrete input *)

Module ExampleNonEmpty.
Import Example ExampleFacts.

Lemma map_nil_iff (f : N -> N) (x : str) : map f x = [] <-> x = [].
Proof. destruct x; simpl; split; intros H; congruence. Qed.

Lemma example_lowered_empty (x : str) :
  lower (translate (lower_map alphabet) x) = [] <-> x = [].
Proof. rewrite lowered_is_map. apply map_nil_iff. Qed.

Lemma example_plain_empty (x : str) :
  normalize_circumflex alphabet x = [] <-> x = [].
Proof. apply map_nil_iff. Qed.

Lemma example_unified_empty (x : str) :
  normalize_apostrophes x = [] <-> x = [].
Proof. apply map_nil_iff. Qed.

End ExampleNonEmpty.

Lemma normalization_empty_iff_input_empty_witness :
  normalize_for_analysis Example.alphabet Example.lower
    Example.normalize_apostrophes (Example.lit "...") = []
  <-> Example.lit "..." = [].
Proof.
  exact (normalization_empty_iff_input_empty
           Example.alphabet Example.lower Example.normalize_apostrophes
           ExampleNonEmpty.example_lowered_empty
           ExampleNonEmpty.example_plain_empty
           ExampleNonEmpty.example_unified_empty
           (Example.lit "...")).
Defined.

Lemma iteration_moves_only_the_cursor_witness :
  let st' := snd (for_each 3 1%nat Example.evi_state) in
  same_objects Example.evi_state st'
  /\ trace st' = trace Example.evi_state
  /\ (forall l', l' <> 1%nat -> heap st' !! l' = heap Example.evi_state !! l')
  /\ (exists o', heap st' !! 1%nat = Some o'
                 /\ index o' = len (analysis_results (Example.evi_object 0))).
Proof.
  exact (iteration_moves_only_the_cursor 3 1%nat Example.evi_state
           (Example.evi_object 0) eq_refl ltac:(simpl; lia)).
Defined.

Lemma exhausted_iterator_stays_exhausted_witness :
  let st' := snd (for_each 3 1%nat Example.evi_state) in
  WordAnalysis__next__ 1%nat st' = (Raise StopIteration, st')
  /\ forall fuel', drain (S fuel') 1%nat st' = (Ok (Some []), st').
Proof.
  exact (exhausted_iterator_stays_exhausted 3 1%nat Example.evi_state
           (Example.evi_object 0) eq_refl ltac:(simpl; lia)).
Defined.

Lemma next_resumes_at_the_cursor_witness :
  let st := {| heap := [Example.evi_object 1]; trace := [] |} in
  fst (drain 2 0%nat st)
  = Ok (Some (drop 1 (analysis_results (Example.evi_object 1)))).
Proof.
  exact (next_resumes_at_the_cursor 2 1 0%nat
           {| heap := [Example.evi_object 1]; trace := [] |}
           (Example.evi_object 1) eq_refl eq_refl
           ltac:(simpl; lia) ltac:(simpl; lia)).
Defined.

Lemma iterators_share_the_cursor_witness :
  fst ((let* it1 := WordAnalysis__iter__ 2%nat in
        let* x := WordAnalysis__next__ it1 in
        let* it2 := WordAnalysis__iter__ 2%nat in
        let* y := WordAnalysis__next__ it1 in
        ret (it1, it2, x, y)) Example.evi_state)
  = Ok (2%nat, 2%nat, Example.ev_p3sg, Example.ev_p3sg).
Proof.
  exact (iterators_share_the_cursor 2%nat Example.evi_state
           (Example.evi_object 2) Example.ev_p3sg [Example.ev_p3sg]
           eq_refl eq_refl).
Defined.

Lemma eq_is_an_equivalence_witness :
  let st := Example.evi_state in
  WordAnalysis__eq__ 0%nat (WordAnalysisObject 0%nat) st = (Ok true, st)
  /\ WordAnalysis__eq__ 0%nat (WordAnalysisObject 1%nat) st
     = WordAnalysis__eq__ 1%nat (WordAnalysisObject 0%nat) st
  /\ (WordAnalysis__eq__ 0%nat (WordAnalysisObject 1%nat) st = (Ok true, st) ->
      WordAnalysis__eq__ 1%nat (WordAnalysisObject 2%nat) st = (Ok true, st) ->
      WordAnalysis__eq__ 0%nat (WordAnalysisObject 2%nat) st = (Ok true, st))
  /\ WordAnalysis__eq__ 0%nat OtherObject st = (Ok false, st).
Proof.
  exact (eq_is_an_equivalence Example.evi_state 0%nat 1%nat 2%nat
           _ _ _ eq_refl eq_refl eq_refl).
Defined.

Lemma equal_objects_print_alike_witness :
  exists s,
    WordAnalysis__str__ stem 1%nat Example.evi_state
    = (Ok s, Example.evi_state)
    /\ WordAnalysis__str__ stem 2%nat Example.evi_state
       = (Ok s, Example.evi_state).
Proof.
  exact (equal_objects_print_alike stem Example.evi_state 1%nat 2%nat
           (Example.evi_object 0) (Example.evi_object 2)
           eq_refl eq_refl eq_refl).
Defined.

Lemma split_at_apostrophe_loses_nothing_witness :
  let word := Example.lit "ahmet'in" in
  let i := find word APOSTROPHE in
  0 <= i
  /\ slice word 0 i ++ APOSTROPHE :: slice_from word (i + 1) = word
  /\ (APOSTROPHE ∉ slice word 0 i)
  /\ replace word APOSTROPHE []
     = slice word 0 i ++ replace (slice_from word (i + 1)) APOSTROPHE [].
Proof.
  intros word i.
  assert (H : 0 <= find word APOSTROPHE) by (vm_compute; discriminate).
  split; [exact H |].
  exact (split_at_apostrophe_loses_nothing word H).
Defined.

Lemma analyze_returns_on_nonempty_word_witness :
  exists l st',
    analyze Example.alphabet Example.lower Example.normalize_apostrophes
      Example.p3sg Example.morphology (Example.lit "ahmet'in") initial_state
    = (Ok l, st').
Proof.
  exact (analyze_returns_on_nonempty_word
           Example.alphabet Example.lower Example.normalize_apostrophes
           Example.p3sg unit unit unit Example.morphology
           (Example.lit "ahmet'in") initial_state
           ltac:(discriminate) eq_refl).
Defined.

Lemma no_result_is_a_lone_unknown_witness :
  let out := analyze_without_cache Example.alphabet Example.lower
               Example.normalize_apostrophes Example.p3sg Example.morphology
               (Some (Example.lit "xyz")) None initial_state in
  fst out = Ok 1%nat
  /\ exists o, heap (snd out) !! 1%nat = Some o /\ no_lone_unknown o.
Proof.
  intros out.
  assert (H : fst out = Ok 1%nat) by reflexivity.
  split; [exact H |].
  exact (no_result_is_a_lone_unknown
           Example.alphabet Example.lower Example.normalize_apostrophes
           Example.p3sg unit unit unit Example.morphology
           (Some (Example.lit "xyz")) None initial_state 1%nat
           loaded_initially H).
Defined.

Lemma single_token_result_fields_witness :
  let w := Example.lit "ahmet'in" in
  let tok := Example.token_of w in
  let n := normalize_for_analysis Example.alphabet Example.lower
             Example.normalize_apostrophes (content tok) in
  exists st' o,
    analyze_without_cache Example.alphabet Example.lower
      Example.normalize_apostrophes Example.p3sg Example.morphology
      (Some w) None initial_state
    = (Ok (length (heap initial_state)), st')
    /\ heap st' !! length (heap initial_state) = Some o
    /\ inp o = content tok
    /\ normalized_input o
       = (if contains_apostrophe Example.alphabet n
          then normalize_apostrophe Example.alphabet n else n)
    /\ index o = 0.
Proof.
  exact (single_token_result_fields
           Example.alphabet Example.lower Example.normalize_apostrophes
           Example.p3sg unit unit unit Example.morphology
           (Example.lit "ahmet'in") None
           (Example.token_of (Example.lit "ahmet'in")) initial_state
           ltac:(discriminate) eq_refl ltac:(discriminate)).
Defined.

Lemma sentinel_iff_empty_normalization_witness :
  let tok := Example.token_of (Example.lit "evi") in
  exists l st',
    analyze_token Example.alphabet Example.lower
      Example.normalize_apostrophes Example.p3sg Example.morphology
      (Some tok) initial_state = (Ok l, st')
    /\ (l = EMPTY_INPUT_RESULT
        <-> normalize_for_analysis Example.alphabet Example.lower
              Example.normalize_apostrophes (content tok) = [])
    /\ (l <> EMPTY_INPUT_RESULT -> l = length (heap initial_state)).
Proof.
  exact (sentinel_iff_empty_normalization
           Example.alphabet Example.lower Example.normalize_apostrophes
           Example.p3sg unit unit unit Example.morphology
           (Example.token_of (Example.lit "evi")) initial_state
           loaded_initially).
Defined.

Lemma correct_only_if_single_token_witness :
  let w := Example.lit "evi" in
  let st' := snd (Example.run_analyze w) in
  (Example.run_analyze w = (Ok 1%nat, st')
   /\ is_correct 1%nat st' = (Ok true, st'))
  /\ exists tok,
       tokenize (tokenizer Example.morphology) w = [tok]
       /\ normalize_for_analysis Example.alphabet Example.lower
            Example.normalize_apostrophes (content tok) <> [].
Proof.
  intros w st'.
  assert (H1 : Example.run_analyze w = (Ok 1%nat, st')) by reflexivity.
  assert (H2 : is_correct 1%nat st' = (Ok true, st')) by reflexivity.
  split; [auto |].
  exact (correct_only_if_single_token
           Example.alphabet Example.lower Example.normalize_apostrophes
           Example.p3sg unit unit unit Example.morphology
           w initial_state st' 1%nat loaded_initially eq_refl H1 H2).
Defined.

Lemma sentinel_is_never_changed_witness :
  loaded (snd (analyze_without_cache Example.alphabet Example.lower
                 Example.normalize_apostrophes Example.p3sg
                 Example.morphology (Some (Example.lit "evi")) None
                 initial_state))
  /\ forall fuel l, loaded (snd (for_each fuel l initial_state)).
Proof.
  exact (sentinel_is_never_changed
           Example.alphabet Example.lower Example.normalize_apostrophes
           Example.p3sg unit unit unit Example.morphology
           (Some (Example.lit "evi")) None initial_state loaded_initially).
Defined.

(** C4, as the specification words it, fails when the last character is an
    apostrophe but not the first one of the word: in "ahmet'in'" the
    splitter finds the apostrophe after "ahmet", which is neither first nor
    last, and returns the analysis of "ahmetin". *)
Lemma splitter_analyses_past_a_final_apostrophe :
  fst (analyze_words_with_apostrophe Example.alphabet Example.p3sg
         Example.morphology (Example.lit "ahmet'in'") initial_state)
  = Ok [Example.ahmet_gen]
  /\ ~ splitter_empty_when_an_apostrophe_is_last Example.alphabet Example.p3sg
        Example.morphology (Example.lit "ahmet'in'") initial_state.
Proof.
  split; [reflexivity |].
  intros H.
  assert (Hlast : (APOSTROPHE ∉ Example.lit "ahmet'in'")
                  \/ (exists rest, Example.lit "ahmet'in'" = APOSTROPHE :: rest)
                  \/ (exists pre, Example.lit "ahmet'in'" = pre ++ [APOSTROPHE])).
  { right. right. exists (Example.lit "ahmet'in"). reflexivity. }
  specialize (H Hlast). vm_compute in H. discriminate H.
Qed.
